(** * SecureChat server: session, registry and routing engine

    A shallow embedding of the server side of TemporalVoid/SecureChat
    (server/db_async.py, server/auth.py, server/registry.py,
    server/router.py, server/secure_channel.py, server/connection.py)
    together with the properties of its specification.

    Conventions of the embedding.
    - A Python [str] is a Rocq [string] whose characters are the code
      points below 256; [lower] and [strip] are Python's [str.lower] and
      [str.strip] on that range.
    - [bytes] are lists of [byte]; the hash works on their values in [N].
    - Values produced by [json.loads] are the inductive [json].
    - The functions of the libraries the server calls (AES-GCM, RSA-OAEP,
      base64, bcrypt) are the fields of the class [Libraries]; what the
      proofs need of them is the class [LibrariesLaws]. [uuid.uuid5] is
      embedded down to SHA-1.
    - A coroutine is a state transformer that may raise. The server moves
      by events: a connection is accepted, or a session reads one line and
      handles it to the end. Handlers of different sessions interleave
      only where they suspend (socket and database I/O); the assignments
      a handler makes to session objects and registry lie between two
      such points (the registry's lock is never contended), so no other
      session observes them half done. *)

From Stdlib Require Import ZArith NArith Lia Ascii String List Bool.
From Stdlib.Strings Require Import Byte.
From stdpp Require Import base option list strings gmap pretty.

Local Open Scope string_scope.
Local Set Warnings "-register-all".

(** ** Python strings *)

Module PyStr.

(** [str.isspace] for a code point below 256: these are the characters
    [str.strip()] removes. *)
Definition isspace (c : ascii) : bool :=
  let n := N_of_ascii c in
  ((9 <=? n) && (n <=? 13) || (28 <=? n) && (n <=? 32)
   || (n =? 133) || (n =? 160))%N.

(** [str.lower] on one code point below 256: A-Z and the Latin-1 capitals
    U+00C0..U+00DE other than the multiplication sign U+00D7. *)
Definition lower_char (c : ascii) : ascii :=
  let n := N_of_ascii c in
  if ((65 <=? n) && (n <=? 90)
      || (192 <=? n) && (n <=? 222) && negb (n =? 215))%N
  then ascii_of_N (n + 32) else c.

Fixpoint lower (s : string) : string :=
  match s with
  | EmptyString => EmptyString
  | String c r => String (lower_char c) (lower r)
  end.

Fixpoint lstrip (s : string) : string :=
  match s with
  | EmptyString => EmptyString
  | String c r => if isspace c then lstrip r else s
  end.

Fixpoint rstrip (s : string) : string :=
  match s with
  | EmptyString => EmptyString
  | String c r =>
      match rstrip r with
      | EmptyString => if isspace c then EmptyString else String c EmptyString
      | r' => String c r'
      end
  end.

Definition strip (s : string) : string := rstrip (lstrip s).

(** [bytes(s, "utf-8")] for code points below 256: one byte below 128, two
    bytes (110000xx 10xxxxxx) from 128 on. *)
Definition byte_of_N (n : N) : byte := byte_of_ascii (ascii_of_N n).

Definition utf8_char (c : ascii) : list byte :=
  let n := N_of_ascii c in
  if (n <? 128)%N then [byte_of_N n]
  else [byte_of_N (N.lor 192 (N.shiftr n 6));
        byte_of_N (N.lor 128 (N.land n 63))].

Fixpoint encode_utf8 (s : string) : list byte :=
  match s with
  | EmptyString => []
  | String c r => utf8_char c ++ encode_utf8 r
  end.

End PyStr.

(** ** UUID version 5 (uuid.uuid5 of the Python standard library)

    [uuid5(namespace, name)] hashes [namespace.bytes + bytes(name, "utf-8")]
    with SHA-1, keeps the first 16 bytes, forces the variant and version
    bits and prints the result as 8-4-4-4-12 lowercase hexadecimal digits. *)

Module Uuid.

Local Open Scope N_scope.

Definition w32 (x : N) : N := x mod 2 ^ 32.

Definition rotl (k x : N) : N :=
  w32 (N.lor (N.shiftl x k) (N.shiftr x (32 - k))).

(** Message padding: a 1 bit, zeros up to 56 mod 64 bytes, then the bit
    length on 8 bytes, big endian. *)
Definition be_bytes (k : nat) (x : N) : list N :=
  map (fun i => N.land (N.shiftr x (8 * N.of_nat i)) 255) (rev (seq 0 k)).

Definition pad (m : list N) : list N :=
  let l := N.of_nat (length m) in
  let z := (119 - l mod 64) mod 64 in
  m ++ [128] ++ repeat 0 (N.to_nat z) ++ be_bytes 8 (8 * l).

Fixpoint be_words (bs : list N) : list N :=
  match bs with
  | a :: b :: c :: d :: r =>
      (N.shiftl a 24 + N.shiftl b 16 + N.shiftl c 8 + d) :: be_words r
  | _ => []
  end.

(** The 80-word message schedule of one block, most recent word first. *)
Fixpoint schedule (k : nat) (w : list N) : list N :=
  match k with
  | O => w
  | S k' =>
      let x := N.lxor (N.lxor (nth 2 w 0) (nth 7 w 0))
                      (N.lxor (nth 13 w 0) (nth 15 w 0)) in
      schedule k' (rotl 1 x :: w)
  end.

Definition round_fk (t : nat) (b c d : N) : N * N :=
  if (t <? 20)%nat then
    (N.lor (N.land b c) (N.land (N.lxor b 4294967295) d), 1518500249)
  else if (t <? 40)%nat then (N.lxor (N.lxor b c) d, 1859775393)
  else if (t <? 60)%nat then
    (N.lor (N.lor (N.land b c) (N.land b d)) (N.land c d), 2400959708)
  else (N.lxor (N.lxor b c) d, 3395469782).

Definition state : Type := N * N * N * N * N.

Definition round (st : state) (tw : nat * N) : state :=
  let '(a, b, c, d, e) := st in
  let '(f, k) := round_fk (fst tw) b c d in
  (w32 (rotl 5 a + f + e + k + snd tw), a, rotl 30 b, c, d).

Definition compress (st : state) (block : list N) : state :=
  let w := rev (schedule 64 (rev (be_words block))) in
  let '(a, b, c, d, e) := fold_left round (combine (seq 0 80) w) st in
  let '(h0, h1, h2, h3, h4) := st in
  (w32 (h0 + a), w32 (h1 + b), w32 (h2 + c), w32 (h3 + d), w32 (h4 + e)).

Fixpoint blocks (n : nat) (bs : list N) (st : state) : state :=
  match n with
  | O => st
  | S n' => blocks n' (drop 64 bs) (compress st (take 64 bs))
  end.

Definition sha1 (m : list byte) : list N :=
  let p := pad (map Byte.to_N m) in
  let '(h0, h1, h2, h3, h4) :=
    blocks (length p / 64) p
      (1732584193, 4023233417, 2562383102, 271733878, 3285377520) in
  flat_map (be_bytes 4) [h0; h1; h2; h3; h4].

Definition int_of_bytes (bs : list N) : N :=
  fold_left (fun acc b => 256 * acc + b) bs 0.

(** [UUID(bytes=hash[:16], version=5)]: the integer with the RFC 4122
    variant and the version number written in. *)
Definition uuid_int (hash : list N) (version : N) : N :=
  let i := int_of_bytes (take 16 hash) in
  let i := N.ldiff i (N.shiftl 49152 48) in
  let i := N.lor i (N.shiftl 32768 48) in
  let i := N.ldiff i (N.shiftl 61440 64) in
  N.lor i (N.shiftl version 76).

Definition hex_digit (d : N) : ascii :=
  if d <? 10 then ascii_of_N (48 + d) else ascii_of_N (87 + d).

(** ['%032x' % i] *)
Definition hex32 (i : N) : list ascii :=
  map (fun k => hex_digit (N.land (N.shiftr i (4 * N.of_nat k)) 15))
      (rev (seq 0 32)).

(** [str(UUID)] *)
Definition uuid_str (i : N) : string :=
  let h := hex32 i in
  string_of_list_ascii
    (take 8 h ++ "-"%char :: take 4 (drop 8 h) ++ "-"%char ::
     take 4 (drop 12 h) ++ "-"%char :: take 4 (drop 16 h) ++ "-"%char ::
     drop 20 h).

(** [uuid.NAMESPACE_DNS.bytes], 6ba7b810-9dad-11d1-80b4-00c04fd430c8 *)
Definition NAMESPACE_DNS : list byte :=
  map PyStr.byte_of_N
    [107; 167; 184; 16; 157; 173; 17; 209; 128; 180; 0; 192; 79; 212; 48; 200].

Definition uuid5 (namespace : list byte) (name : string) : string :=
  uuid_str (uuid_int (sha1 (namespace ++ PyStr.encode_utf8 name)) 5).

End Uuid.

(** ** JSON values, Python exceptions and dictionaries *)

(** What [json.loads] returns. Numbers are the integer literals; an object
    is the list of its items in insertion order. *)
Inductive json : Type :=
  | JNull
  | JBool (b : bool)
  | JNum (n : Z)
  | JStr (s : string)
  | JArr (l : list json)
  | JObj (o : list (string * json)).

(** The exception classes the server's [except] clauses tell apart.
    [ValueError] stands for itself and its subclasses
    ([json.JSONDecodeError], [binascii.Error]); [OtherError] for the
    remaining ones ([OverflowError], [sqlite3.ProgrammingError]). *)
Inductive exn : Type :=
  | KeyError
  | TypeError
  | ValueError
  | AttributeError
  | IntegrityError
  | OtherError.

Module Py.

(** A [dict] with [str] keys, as the list of its items in insertion
    order: [d.get(k)], [d[k] = v] and [del d[k]]. *)
Fixpoint dict_get {A} (d : list (string * A)) (k : string) : option A :=
  match d with
  | [] => None
  | (k', v) :: r => if decide (k' = k) then Some v else dict_get r k
  end.

Fixpoint dict_set {A} (d : list (string * A)) (k : string) (v : A)
  : list (string * A) :=
  match d with
  | [] => [(k, v)]
  | (k', v') :: r =>
      if decide (k' = k) then (k', v) :: r else (k', v') :: dict_set r k v
  end.

Fixpoint dict_del {A} (d : list (string * A)) (k : string)
  : list (string * A) :=
  match d with
  | [] => []
  | (k', v') :: r =>
      if decide (k' = k) then r else (k', v') :: dict_del r k
  end.

(** [x[k]] for a string key [k]: only a dict can be subscripted by a
    string. *)
Definition getitem (x : json) (k : string) : exn + json :=
  match x with
  | JObj o => match dict_get o k with
              | Some v => inr v
              | None => inl KeyError
              end
  | _ => inl TypeError
  end.

(** [x.get(k)]: [None] for a missing key, no such attribute on a value
    that is not a dict. *)
Definition get (x : json) (k : string) : exn + json :=
  match x with
  | JObj o => inr (default JNull (dict_get o k))
  | _ => inl AttributeError
  end.

(** [x == s] for a string literal [s]. *)
Definition eq_str (x : json) (s : string) : bool :=
  match x with
  | JStr t => bool_decide (t = s)
  | _ => false
  end.

(** The receiver of a [str] method such as [strip] or [encode]. *)
Definition as_str (x : json) : exn + string :=
  match x with
  | JStr s => inr s
  | _ => inl AttributeError
  end.

(** Truth value of a string: empty is false. *)
Definition truthy (s : string) : bool := negb (bool_decide (s = EmptyString)).

Definition of_opt (o : option string) : json :=
  match o with
  | Some s => JStr s
  | None => JNull
  end.

(** [str(x)] of an attribute that holds a string or [None]. *)
Definition str_opt (o : option string) : string := default "None" o.

End Py.

(** ** The libraries behind the server *)

(** The functions of the [cryptography], [base64] and [bcrypt] packages the
    server calls, the server's RSA key pair, [bytes.decode("utf-8")] and
    [repr] of a list or dict (used only to print an unknown command type).
    A failure of a primitive is [None]: every caller catches all
    exceptions of these calls alike. [aesgcm_encrypt key nonce data] and
    [aesgcm_decrypt key nonce data] are [AESGCM(key).encrypt(nonce, data,
    None)] and [AESGCM(key).decrypt(nonce, data, None)]. *)
Class Libraries : Type := {
  b64encode : list byte -> string;
  b64decode : string -> option (list byte);
  utf8_decode : list byte -> option string;
  aesgcm_encrypt : list byte -> list byte -> list byte -> list byte;
  aesgcm_decrypt : list byte -> list byte -> list byte -> option (list byte);
  rsa_oaep_decrypt : list byte -> option (list byte);
  public_key_pem : string;
  bcrypt_hashpw : string -> string -> string;
  bcrypt_checkpw : string -> string -> bool;
  repr_container : json -> string
}.

(** Bit [i] of a byte string, counted from the least significant bit of
    its first byte, inverted. *)
Definition flip_byte (j : nat) (b : byte) : byte :=
  PyStr.byte_of_N (N.lxor (Byte.to_N b) (2 ^ N.of_nat j)).

Definition flip_bit (i : nat) (bs : list byte) : list byte :=
  alter (flip_byte (i mod 8)) (i / 8)%nat bs.

(** What the proofs use of the libraries: base64 and UTF-8 decoding undo
    the encoding, AES-GCM decrypts what it encrypted, and its tag rejects
    a nonce or a ciphertext in which one bit was inverted (authenticated
    encryption as the library documents it: [decrypt] raises [InvalidTag]
    when the nonce or the data are not the ones encrypted). *)
Class LibrariesLaws `{!Libraries} : Prop := {
  b64decode_b64encode :
    forall bs, b64decode (b64encode bs) = Some bs;
  utf8_decode_encode :
    forall s, utf8_decode (PyStr.encode_utf8 s) = Some s;
  aesgcm_decrypt_encrypt :
    forall key nonce data,
      length key = 32%nat -> length nonce = 12%nat ->
      aesgcm_decrypt key nonce (aesgcm_encrypt key nonce data) = Some data;
  aesgcm_tag_nonce :
    forall key nonce data i,
      length key = 32%nat -> length nonce = 12%nat ->
      (i < 8 * length nonce)%nat ->
      aesgcm_decrypt key (flip_bit i nonce) (aesgcm_encrypt key nonce data)
      = None;
  aesgcm_tag_data :
    forall key nonce data i,
      length key = 32%nat -> length nonce = 12%nat ->
      (i < 8 * length (aesgcm_encrypt key nonce data))%nat ->
      aesgcm_decrypt key nonce (flip_bit i (aesgcm_encrypt key nonce data))
      = None
}.

(** ** server/secure_channel.py *)

Section SecureChannelPy.

Context `{!Libraries}.

(** [SecureChannel.__init__]: the channel is the AES-GCM object of its
    key. *)
Definition SecureChannel (aes_key : list byte) : exn + list byte :=
  if bool_decide (length aes_key = 32%nat) then inr aes_key
  else inl ValueError.

(** [SecureChannel.encrypt]; [nonce] is what [os.urandom(12)] draws. *)
Definition encrypt (channel nonce : list byte) (plaintext : string)
  : string :=
  let plaintext_bytes := PyStr.encode_utf8 plaintext in
  let ciphertext_bytes := aesgcm_encrypt channel nonce plaintext_bytes in
  b64encode (nonce ++ ciphertext_bytes)%list.

(** [SecureChannel.decrypt]: whatever fails, the one [ValueError] is
    raised. *)
Definition decrypt (channel : list byte) (encrypted_blob : string)
  : exn + string :=
  match b64decode encrypted_blob with
  | None => inl ValueError
  | Some encrypted_bytes =>
      let nonce := take 12 encrypted_bytes in
      let ciphertext := drop 12 encrypted_bytes in
      match aesgcm_decrypt channel nonce ciphertext with
      | None => inl ValueError
      | Some decrypted_bytes =>
          match utf8_decode decrypted_bytes with
          | None => inl ValueError
          | Some s => inr s
          end
      end
  end.

End SecureChannelPy.

(** ** server/db_async.py *)

Module Database.

Record user_row : Type := mk_user {
  id : string;
  full_name : option string;
  email : string;
  password : string
}.

Record message_row : Type := mk_message {
  sender_id : string;
  recipient_id : string;
  payload_blob : list byte
}.

(** A parameter bound to a TEXT column: [None] is stored as NULL, a [str]
    as it is, an [int] (and so a [bool]) in its decimal form when it fits
    64 bits; a list or dict cannot be bound. *)
Definition bind_text (x : json) : exn + option string :=
  match x with
  | JNull => inr None
  | JBool b => inr (Some (if b then "1" else "0"))
  | JNum n =>
      if ((- 2 ^ 63 <=? n) && (n <? 2 ^ 63))%Z then inr (Some (pretty n))
      else inl OtherError
  | JStr s => inr (Some s)
  | JArr _ | JObj _ => inl OtherError
  end.

Definition _generate_user_id (email : string) : string :=
  let norm_email := PyStr.lower (PyStr.strip email) in
  Uuid.uuid5 Uuid.NAMESPACE_DNS norm_email.

(** The INSERT of [add_user] violates a constraint when the id (PRIMARY
    KEY) or the email (UNIQUE) is already in the table. *)
Definition conflicts (users : list user_row) (uid em : string) : bool :=
  existsb (fun r => bool_decide (id r = uid) || bool_decide (email r = em))
          users.

(** [add_user]: the new table and the returned id, [None] on
    [IntegrityError]; any other failure of the INSERT is raised. *)
Definition add_user (users : list user_row) (name : json) (em pw : string)
  : exn + (list user_row * option string) :=
  let user_id := _generate_user_id em in
  match bind_text name with
  | inl e => inl e
  | inr fn =>
      if conflicts users user_id em then inr (users, None)
      else inr ((users ++ [mk_user user_id fn em pw])%list, Some user_id)
  end.

Definition get_user_by_email (users : list user_row) (em : string)
  : option user_row :=
  find (fun r => bool_decide (email r = em)) users.

(** [store_message]: the payload is encoded while the parameter tuple is
    built; the INSERT then binds the two ids and fails on a NULL, both
    columns being NOT NULL. *)
Definition store_message (messages : list message_row)
    (sender : option string) (recipient payload : json)
  : exn + list message_row :=
  match Py.as_str payload with
  | inl e => inl e
  | inr text =>
      match bind_text (Py.of_opt sender), bind_text recipient with
      | inl e, _ | inr _, inl e => inl e
      | inr (Some s), inr (Some r) =>
          inr (messages ++ [mk_message s r (PyStr.encode_utf8 text)])%list
      | inr _, inr _ => inl IntegrityError
      end
  end.

(** [get_user_by_id] *)
Definition get_user_by_id (users : list user_row) (user_id : string)
  : option user_row :=
  find (fun r => bool_decide (id r = user_id)) users.

End Database.

(** ** The server's state *)

(** A frame written to a connection: the plaintext envelope of the
    handshake, or an [encrypted_payload] envelope, recorded by the inner
    envelope it carries under the channel of the session it is written
    to. *)
Inductive frame : Type :=
  | Plaintext (data : json)
  | Encrypted (data : json).

(** Where [handle_connection] of a session stands: waiting for the
    [key_exchange] line, in the [while True] loop, or past its [finally]
    block (writer closed). *)
Inductive stage : Type :=
  | AwaitKey
  | Dispatch
  | Closed.

(** The attributes of a [ClientSession] object. [secure_channel] holds the
    key of its [SecureChannel]. *)
Record ClientSession : Type := mk_session {
  user_id : option string;
  full_name : option string;
  email : option string;
  is_authenticated : bool;
  secure_channel : option (list byte);
  at_stage : stage
}.

(** The [Server] object and what hangs off it: the registry's
    [_online_users] dict (its values are references to session objects,
    here handles into [heap]), the two tables of the database, the session
    objects, and the frames written so far, each with the handle of the
    connection it went to. *)
Record Server : Type := mk_server {
  _online_users : list (string * nat);
  users : list Database.user_row;
  messages : list Database.message_row;
  heap : gmap nat ClientSession;
  wire : list (nat * frame)
}.

Definition initial : Server := mk_server [] [] [] ∅ [].

Definition set_online (f : list (string * nat) -> list (string * nat))
    (σ : Server) : Server :=
  mk_server (f (_online_users σ)) (users σ) (messages σ) (heap σ) (wire σ).

Definition set_users (u : list Database.user_row) (σ : Server) : Server :=
  mk_server (_online_users σ) u (messages σ) (heap σ) (wire σ).

Definition set_messages (m : list Database.message_row) (σ : Server)
  : Server :=
  mk_server (_online_users σ) (users σ) m (heap σ) (wire σ).

Definition set_heap (f : gmap nat ClientSession -> gmap nat ClientSession)
    (σ : Server) : Server :=
  mk_server (_online_users σ) (users σ) (messages σ) (f (heap σ)) (wire σ).

Definition write (h : nat) (f : frame) (σ : Server) : Server :=
  mk_server (_online_users σ) (users σ) (messages σ) (heap σ)
            (wire σ ++ [(h, f)])%list.

(** The four states of the specification's session state machine. *)
Inductive session_state : Type :=
  | HANDSHAKE
  | UNAUTH
  | AUTH
  | CLOSED.

#[global] Instance session_state_eq_dec : EqDecision session_state.
Proof. solve_decision. Defined.

Definition state_of (s : ClientSession) : session_state :=
  match at_stage s with
  | AwaitKey => HANDSHAKE
  | Dispatch => if is_authenticated s then AUTH else UNAUTH
  | Closed => CLOSED
  end.

(** ** Coroutines as state transformers that may raise *)

Definition M (A : Type) : Type := Server -> (exn + A) * Server.

Definition ret {A} (a : A) : M A := fun σ => (inr a, σ).

Definition raise {A} (e : exn) : M A := fun σ => (inl e, σ).

Definition bind {A B} (m : M A) (k : A -> M B) : M B :=
  fun σ => match m σ with
           | (inr a, σ') => k a σ'
           | (inl e, σ') => (inl e, σ')
           end.

Definition lift {A} (r : exn + A) : M A := fun σ => (r, σ).

Definition gets {A} (f : Server -> A) : M A := fun σ => (inr (f σ), σ).

Definition modify (f : Server -> Server) : M unit := fun σ => (inr tt, f σ).

(** [try: m except (classes): handler] *)
Definition try_except {A} (m : M A) (classes : exn -> bool) (handler : M A)
  : M A :=
  fun σ => match m σ with
           | (inl e, σ') => if classes e then handler σ' else (inl e, σ')
           | r => r
           end.

Notation "'let*' x ':=' m 'in' k" := (bind m (fun x => k))
  (at level 10, x name, m at level 100, k at level 200, only parsing).
Notation "m ';;' k" := (bind m (fun _ => k))
  (at level 100, k at level 200, right associativity, only parsing).

Definition key_or_type_error (e : exn) : bool :=
  match e with
  | KeyError | TypeError => true
  | _ => false
  end.

(** [self] of the session with handle [h]. *)
Definition self (h : nat) : M ClientSession :=
  fun σ => match heap σ !! h with
           | Some s => (inr s, σ)
           | None => (inl OtherError, σ)
           end.

Definition update_self (h : nat) (f : ClientSession -> ClientSession)
  : M unit :=
  modify (set_heap (fun m => match m !! h with
                             | Some s => <[h := f s]> m
                             | None => m
                             end)).

(** ** server/registry.py *)

Module UserRegistry.

Definition register_user (user_id : string) (session : nat) : M unit :=
  modify (set_online (fun d => Py.dict_set d user_id session)).

Definition unregister_user (user_id : string) : M unit :=
  modify (set_online (fun d =>
    match Py.dict_get d user_id with
    | Some _ => Py.dict_del d user_id
    | None => d
    end)).

(** [self._online_users.get(user_id)]: a list or dict is not hashable;
    nothing but a [str] equals a key of the dict. *)
Definition get_session_by_id (user_id : json) : M (option nat) :=
  match user_id with
  | JStr u => gets (fun σ => Py.dict_get (_online_users σ) u)
  | JArr _ | JObj _ => raise TypeError
  | _ => ret None
  end.

Definition online_entry (s : ClientSession) : json :=
  JObj [("id", Py.of_opt (user_id s)); ("full_name", Py.of_opt (full_name s))].

Definition get_online_users_list : M (list json) :=
  gets (fun σ =>
    omap (fun kv => match heap σ !! kv.2 with
                    | Some s =>
                        if is_authenticated s then Some (online_entry s)
                        else None
                    | None => None
                    end)
         (_online_users σ)).

End UserRegistry.

(** ** server/auth.py, server/router.py, server/connection.py *)

Section Engine.

Context `{!Libraries}.

(** [hash_password]; [salt] is what [bcrypt.gensalt()] draws. *)
Definition hash_password (password : json) (salt : string) : exn + string :=
  match Py.as_str password with
  | inl e => inl e
  | inr p => inr (bcrypt_hashpw p salt)
  end.

Definition check_password (password : json) (hashed_password : string)
  : exn + bool :=
  match Py.as_str password with
  | inl e => inl e
  | inr p => inr (bcrypt_checkpw p hashed_password)
  end.

(** [Authenticator.authenticate] *)
Definition authenticate (email : string) (password : json)
  : M (option Database.user_row) :=
  let normalized_email := PyStr.lower (PyStr.strip email) in
  let* user_row :=
    gets (fun σ => Database.get_user_by_email (users σ) normalized_email) in
  match user_row with
  | None => ret None
  | Some row =>
      let* ok := lift (check_password password (Database.password row)) in
      if ok : bool then ret (Some row) else ret None
  end.

Definition response (payload : list (string * json)) : json :=
  JObj [("type", JStr "response"); ("payload", JObj payload)].

Definition status_message (status message : string) : json :=
  response [("status", JStr status); ("message", JStr message)].

(** [ClientSession._send_plaintext_json] *)
Definition _send_plaintext_json (h : nat) (data : json) : M unit :=
  modify (write h (Plaintext data)).

(** [ClientSession.send_json]: nothing is sent before the secure channel
    exists. *)
Definition send_json (h : nat) (data : json) : M unit :=
  let* s := self h in
  match secure_channel s with
  | None => ret tt
  | Some _ => modify (write h (Encrypted data))
  end.

(** [Router.route_chat_message] *)
Definition route_chat_message (sender_session : nat) (envelope : json)
  : M unit :=
  try_except
    (let* payload := lift (Py.getitem envelope "payload") in
     let* recipient_id := lift (Py.getitem payload "recipient_id") in
     let* message_text := lift (Py.getitem payload "text") in
     let* sender := self sender_session in
     let sender_id := user_id sender in
     let* recipient_session :=
       UserRegistry.get_session_by_id recipient_id in
     match recipient_session with
     | Some recipient =>
         let delivery_envelope :=
           JObj [("type", JStr "new_message");
                 ("payload",
                  JObj [("sender_id", Py.of_opt sender_id);
                        ("sender_name", Py.of_opt (full_name sender));
                        ("text", message_text)])] in
         send_json recipient delivery_envelope
     | None =>
         let* table := gets messages in
         let* table' :=
           lift (Database.store_message table sender_id recipient_id
                                        message_text) in
         modify (set_messages table') ;;
         send_json sender_session
           (status_message "info" "Recipient is offline. Message stored.")
     end)
    key_or_type_error
    (send_json sender_session
       (status_message "error" "Malformed chat envelope.")).

(** [str(x)] inside an f-string. *)
Definition format (x : json) : string :=
  match x with
  | JNull => "None"
  | JBool b => if b then "True" else "False"
  | JNum n => pretty n
  | JStr s => s
  | JArr _ | JObj _ => repr_container x
  end.

(** [ClientSession._perform_login] *)
Definition _perform_login (h : nat) (envelope : json) : M unit :=
  try_except
    (let* payload := lift (Py.getitem envelope "payload") in
     let* email_ := lift (Py.getitem payload "email") in
     let* password := lift (Py.getitem payload "password") in
     let* email_str := lift (Py.as_str email_) in
     let normalized_email := PyStr.lower (PyStr.strip email_str) in
     let* user_data := authenticate normalized_email password in
     match user_data with
     | Some row =>
         update_self h (fun s =>
           mk_session (Some (Database.id row)) (Database.full_name row)
                      (Some (Database.email row)) true
                      (secure_channel s) (at_stage s)) ;;
         UserRegistry.register_user (Database.id row) h ;;
         send_json h
           (response
              [("status", JStr "ok");
               ("message",
                JStr ("Login successful. Welcome, "
                      ++ Py.str_opt (Database.full_name row) ++ "!"));
               ("user_info",
                JObj [("id", JStr (Database.id row));
                      ("full_name", Py.of_opt (Database.full_name row));
                      ("email", JStr (Database.email row))])])
     | None =>
         send_json h
           (status_message "error" "Login failed. Invalid credentials.")
     end)
    key_or_type_error
    (send_json h (status_message "error" "Malformed login envelope.")).

(** [ClientSession._perform_signup] *)
Definition _perform_signup (h : nat) (envelope : json) (salt : string)
  : M unit :=
  try_except
    (let* type := lift (Py.get envelope "type") in
     if negb (Py.eq_str type "signup") then
       send_json h (status_message "error" "Invalid type for signup")
     else
       let* payload := lift (Py.getitem envelope "payload") in
       let* name := lift (Py.getitem payload "full_name") in
       let* email_ := lift (Py.getitem payload "email") in
       let* password := lift (Py.getitem payload "password") in
       let* email_str := lift (Py.as_str email_) in
       let normalized_email := PyStr.lower (PyStr.strip email_str) in
       let* hashed_pw := lift (hash_password password salt) in
       let* table := gets users in
       let* added :=
         lift (Database.add_user table name normalized_email hashed_pw) in
       modify (set_users added.1) ;;
       match added.2 with
       | Some created_id =>
           if Py.truthy created_id then
             send_json h
               (status_message "ok"
                  "Sign-up successful. Please login to authenticate.")
           else
             send_json h
               (status_message "error"
                  "Sign-up failed. Email already exists.")
       | None =>
           send_json h
             (status_message "error" "Sign-up failed. Email already exists.")
       end)
    key_or_type_error
    (send_json h (status_message "error" "Malformed sign-up envelope.")).

(** [ClientSession._process_message] *)
Definition _process_message (h : nat) (envelope : json) : M unit :=
  let* msg_type := lift (Py.get envelope "type") in
  if Py.eq_str msg_type "chat" then route_chat_message h envelope
  else if Py.eq_str msg_type "whoisonline" then
    let* online_users := UserRegistry.get_online_users_list in
    send_json h
      (response [("status", JStr "ok"); ("users", JArr online_users)])
  else
    send_json h
      (status_message "error" ("Unknown command type: " ++ format msg_type)).

End Engine.

(** ** ClientSession.handle_connection *)

(** What [readline] and the decoding that follows it yield: end of file;
    a line from which no envelope comes out ([json.loads] fails, or past
    the handshake the outer envelope has no payload, the payload does not
    decrypt, or the plaintext is not JSON), each of which raises in
    [handle_connection] before anything is dispatched; or the envelope:
    the object on the line during the handshake, the inner envelope
    afterwards. *)
Inductive line : Type :=
  | EOF
  | Undecodable
  | Envelope (j : json).

(** What happens to the server: a connection is accepted and handed to a
    new session object [h], or the session [h] reads its next line.
    [salt] is the salt [bcrypt.gensalt()] draws should the line be a
    sign-up. *)
Inductive event : Type :=
  | Accept (h : nat)
  | Recv (h : nat) (l : line) (salt : string).

Section Connection.

Context `{!Libraries}.

Definition new_session : ClientSession :=
  mk_session None None None false None AwaitKey.

(** [Server.handle_client] up to the first [readline]. *)
Definition accept (h : nat) (σ : Server) : Server :=
  match heap σ !! h with
  | Some _ => σ
  | None =>
      write h
        (Plaintext
           (JObj [("type", JStr "handshake_start");
                  ("payload", JObj [("public_key", JStr public_key_pem)])]))
        (set_heap (fun m => <[h := new_session]> m) σ)
  end.

(** The [finally] block. *)
Definition teardown (h : nat) : M unit :=
  let* s := self h in
  (if is_authenticated s
      && match user_id s with Some u => Py.truthy u | None => false end
   then UserRegistry.unregister_user (default EmptyString (user_id s))
   else ret tt) ;;
  update_self h (fun s =>
    mk_session (user_id s) (full_name s) (email s) (is_authenticated s)
               (secure_channel s) Closed).

(** [ClientSession._handle_key_exchange]: [except Exception] turns every
    failure into [False]. *)
Definition _handle_key_exchange (h : nat) (envelope : json) : M bool :=
  try_except
    (let* payload := lift (Py.getitem envelope "payload") in
     let* encrypted_key_b64 := lift (Py.getitem payload "key") in
     let* encrypted_key :=
       lift match encrypted_key_b64 with
            | JStr k => match b64decode k with
                        | Some bs => inr bs
                        | None => inl ValueError
                        end
            | _ => inl TypeError
            end in
     let* aes_key :=
       lift match rsa_oaep_decrypt encrypted_key with
            | Some k => inr k
            | None => inl ValueError
            end in
     let* channel := lift (SecureChannel aes_key) in
     update_self h (fun s =>
       mk_session (user_id s) (full_name s) (email s) (is_authenticated s)
                  (Some channel) (at_stage s)) ;;
     send_json h
       (JObj [("type", JStr "handshake_complete");
              ("payload",
               JObj [("message", JStr "Secure channel established.")])]) ;;
     ret true)
    (fun _ => true)
    (ret false).

(** Phase 1, from the first [readline] on. *)
Definition handshake (h : nat) (l : line) : M bool :=
  match l with
  | EOF => ret false
  | Undecodable => raise ValueError
  | Envelope envelope =>
      let* type := lift (Py.get envelope "type") in
      if negb (Py.eq_str type "key_exchange") then ret false
      else _handle_key_exchange h envelope
  end.

(** One turn of the [while True] loop of phase 2; [false] is [break]. *)
Definition dispatch (h : nat) (l : line) (salt : string) : M bool :=
  match l with
  | EOF => ret false
  | Undecodable => raise ValueError
  | Envelope envelope =>
      let* s := self h in
      (if negb (is_authenticated s) then
         let* msg_type := lift (Py.get envelope "type") in
         if Py.eq_str msg_type "login" then _perform_login h envelope
         else if Py.eq_str msg_type "signup" then
           _perform_signup h envelope salt
         else
           send_json h
             (status_message "error"
                "Not authenticated. Send 'login' or 'signup'.")
       else _process_message h envelope) ;;
      ret true
  end.

(** The body of [handle_connection] from one [readline] to the next: the
    session goes on when the phase says so, and runs the [finally] block
    when the phase returns, breaks or raises (both [except] clauses only
    print). *)
Definition resume (h : nat) (phase : M bool) (next : stage) (σ : Server)
  : Server :=
  match phase σ with
  | (inr true, σ') =>
      (update_self h (fun s =>
         mk_session (user_id s) (full_name s) (email s) (is_authenticated s)
                    (secure_channel s) next) σ').2
  | (_, σ') => (teardown h σ').2
  end.

Definition recv (h : nat) (l : line) (salt : string) (σ : Server) : Server :=
  match heap σ !! h with
  | None => σ
  | Some s =>
      match at_stage s with
      | AwaitKey => resume h (handshake h l) Dispatch σ
      | Dispatch => resume h (dispatch h l salt) Dispatch σ
      | Closed => σ
      end
  end.

Definition step (σ : Server) (e : event) : Server :=
  match e with
  | Accept h => accept h σ
  | Recv h l salt => recv h l salt σ
  end.

Definition run (es : list event) : Server := fold_left step es initial.

(** A state of the server some sequence of events leads to. *)
Definition reachable (σ : Server) : Prop := exists es, run es = σ.

(** Frames written to a connection. *)
Definition sent_to (h : nat) (σ : Server) : list frame :=
  omap (fun hf => if bool_decide (hf.1 = h) then Some hf.2 else None)
       (wire σ).

(** The sessions of the state machine's AUTH state. *)
Definition auth_sessions (σ : Server) : gmap nat ClientSession :=
  filter (fun hs => state_of hs.2 = AUTH) (heap σ).

End Connection.

(** ** An executable instance of the libraries

    Enough of the libraries to run the server's model on concrete events:
    RFC 4648 base64, UTF-8 decoding of code points below 256, and small
    stand-ins for the ciphers (the AEAD appends a tag made of a copy of
    the data, the nonce and the key; RSA and bcrypt are the identity). *)

Module Model.

Local Open Scope N_scope.

#[export] Instance byte_eq_dec : EqDecision byte := Byte.byte_eq_dec.

Definition alphabet : list ascii :=
  list_ascii_of_string
    "ABCDEFGHIJKLMNOPQRSTUVWXYZabcdefghijklmnopqrstuvwxyz0123456789+/".

Definition b64_char (k : N) : ascii := nth (N.to_nat k) alphabet "="%char.

Fixpoint index_of (c : ascii) (l : list ascii) : option N :=
  match l with
  | [] => None
  | x :: r => if decide (x = c) then Some 0 else N.succ <$> index_of c r
  end.

Definition b64_index (c : ascii) : option N := index_of c alphabet.

Fixpoint base64_encode (bs : list byte) : string :=
  match bs with
  | [] => EmptyString
  | [a] =>
      let n := Byte.to_N a * 16 in
      String (b64_char (n / 64)) (String (b64_char (n mod 64)) "==")
  | [a; b] =>
      let n := (Byte.to_N a * 256 + Byte.to_N b) * 4 in
      String (b64_char (n / 4096))
        (String (b64_char (n / 64 mod 64)) (String (b64_char (n mod 64)) "="))
  | a :: b :: c :: r =>
      let n := Byte.to_N a * 65536 + Byte.to_N b * 256 + Byte.to_N c in
      String (b64_char (n / 262144))
        (String (b64_char (n / 4096 mod 64))
           (String (b64_char (n / 64 mod 64))
              (String (b64_char (n mod 64)) (base64_encode r))))
  end.

(** Decoding of a padded encoding, four characters at a time. *)
Fixpoint base64_decode (s : string) : option (list byte) :=
  match s with
  | EmptyString => Some []
  | String c1 (String c2 (String c3 (String c4 r))) =>
      match b64_index c1, b64_index c2 with
      | Some i1, Some i2 =>
          if decide (c3 = "="%char /\ c4 = "="%char /\ r = EmptyString) then
            Some [PyStr.byte_of_N ((i1 * 64 + i2) / 16)]
          else
            match b64_index c3 with
            | Some i3 =>
                if decide (c4 = "="%char /\ r = EmptyString) then
                  let n := (i1 * 64 + i2) * 64 + i3 in
                  Some [PyStr.byte_of_N (n / 1024);
                        PyStr.byte_of_N (n / 4 mod 256)]
                else
                  match b64_index c4, base64_decode r with
                  | Some i4, Some bs =>
                      let n := ((i1 * 64 + i2) * 64 + i3) * 64 + i4 in
                      Some (PyStr.byte_of_N (n / 65536)
                            :: PyStr.byte_of_N (n / 256 mod 256)
                            :: PyStr.byte_of_N (n mod 256) :: bs)
                  | _, _ => None
                  end
            | None => None
            end
      | _, _ => None
      end
  | _ => None
  end.

Fixpoint decode_utf8 (bs : list byte) : option string :=
  match bs with
  | [] => Some EmptyString
  | b :: r =>
      let n := Byte.to_N b in
      if n <? 128 then String (ascii_of_N n) <$> decode_utf8 r
      else
        match r with
        | b2 :: r' =>
            let m := Byte.to_N b2 in
            if ((n =? 194) || (n =? 195)) && (128 <=? m) && (m <? 192) then
              String (ascii_of_N ((n - 192) * 64 + (m - 128)))
                <$> decode_utf8 r'
            else None
        | [] => None
        end
  end.

Definition aead_encrypt (key nonce data : list byte) : list byte :=
  (data ++ data ++ nonce ++ key)%list.

Definition aead_decrypt (key nonce c : list byte) : option (list byte) :=
  let tag := (length nonce + length key)%nat in
  let data := take ((length c - tag) / 2)%nat c in
  if decide (c = aead_encrypt key nonce data) then Some data else None.

#[export] Instance libraries : Libraries := {|
  b64encode := base64_encode;
  b64decode := base64_decode;
  utf8_decode := decode_utf8;
  aesgcm_encrypt := aead_encrypt;
  aesgcm_decrypt := aead_decrypt;
  rsa_oaep_decrypt := Some;
  public_key_pem := "-----BEGIN PUBLIC KEY-----";
  bcrypt_hashpw := fun password salt => password;
  bcrypt_checkpw := fun password hashed => bool_decide (password = hashed);
  repr_container := fun _ => "[...]"
|}.

End Model.

(** ** The vocabulary of the properties

    Session objects, server states, envelopes and predicates the
    statements below are written with. *)

Section Vocabulary.

Context `{!Libraries}.

(** The specification's [normalize]: lowercase plus trim. *)
Definition normalize (e : string) : string := PyStr.lower (PyStr.strip e).

(** A user row whose id is a non-empty string. *)
Definition row_ok (r : Database.user_row) : Prop :=
  Py.truthy (Database.id r) = true.

(** What holds of every state the server reaches:
    - a session in the loop has its secure channel;
    - an authenticated session has left the handshake and carries a
      non-empty user id;
    - a session that is not authenticated has no user attributes;
    - every registry entry maps a user id to a session in state AUTH that
      is authenticated under that id;
    - the registry has one entry per user id;
    - every user row has a non-empty id. *)
Record inv (σ : Server) : Prop := {
  inv_channel : forall h s,
    heap σ !! h = Some s -> at_stage s = Dispatch ->
    is_Some (secure_channel s);
  inv_auth : forall h s,
    heap σ !! h = Some s -> is_authenticated s = true ->
    at_stage s <> AwaitKey
    /\ exists u, user_id s = Some u /\ Py.truthy u = true;
  inv_unset : forall h s,
    heap σ !! h = Some s -> is_authenticated s = false ->
    user_id s = None /\ full_name s = None /\ email s = None;
  inv_entry : forall u h,
    Py.dict_get (_online_users σ) u = Some h ->
    exists s, heap σ !! h = Some s /\ state_of s = AUTH /\ user_id s = Some u;
  inv_keys : NoDup (_online_users σ).*1;
  inv_rows : Forall row_ok (users σ)
}.

(** A step that leaves the session objects and the registry as they are
    and keeps the user rows well formed. *)
Definition quiet (σ σ' : Server) : Prop :=
  heap σ' = heap σ /\ _online_users σ' = _online_users σ
  /\ (Forall row_ok (users σ) -> Forall row_ok (users σ')).

(** The session object after a successful login as [row]. *)
Definition logged_in (s : ClientSession) (row : Database.user_row)
  : ClientSession :=
  mk_session (Some (Database.id row)) (Database.full_name row)
             (Some (Database.email row)) true (secure_channel s) (at_stage s).

Definition with_channel (s : ClientSession) (c : list byte) : ClientSession :=
  mk_session (user_id s) (full_name s) (email s) (is_authenticated s)
             (Some c) (at_stage s).

Definition at_ (s : ClientSession) (st : stage) : ClientSession :=
  mk_session (user_id s) (full_name s) (email s) (is_authenticated s)
             (secure_channel s) st.

(** The state right after the assignments and the registration of a
    successful login. *)
Definition login_state (h : nat) (s : ClientSession)
    (row : Database.user_row) (σ : Server) : Server :=
  set_online (fun d => Py.dict_set d (Database.id row) h)
             (set_heap (fun m => <[h := logged_in s row]> m) σ).

(** The state the [finally] block leaves. *)
Definition teardown_state (h : nat) (s : ClientSession) (σ : Server)
  : Server :=
  set_heap (fun m => <[h := at_ s Closed]> m)
    (if is_authenticated s
        && match user_id s with Some u => Py.truthy u | None => false end
     then set_online
            (fun d =>
               match Py.dict_get d (default EmptyString (user_id s)) with
               | Some _ => Py.dict_del d (default EmptyString (user_id s))
               | None => d
               end) σ
     else σ).

Definition handshake_complete : json :=
  JObj [("type", JStr "handshake_complete");
        ("payload", JObj [("message", JStr "Secure channel established.")])].

(** The state after [_handle_key_exchange] has built the channel. *)
Definition keyed_state (h : nat) (s : ClientSession) (c : list byte)
    (σ : Server) : Server :=
  set_heap (fun m => <[h := with_channel s c]> m) σ.

(** No two sessions are in state AUTH under the same user id. *)
Definition exclusive (σ : Server) : Prop :=
  forall h1 h2 s1 s2,
    heap σ !! h1 = Some s1 -> heap σ !! h2 = Some s2 ->
    state_of s1 = AUTH -> state_of s2 = AUTH ->
    user_id s1 = user_id s2 -> h1 = h2.

(** [exclusive], decided on the list of the session objects. *)
Definition exclusiveb (σ : Server) : bool :=
  let l := map_to_list (heap σ) in
  forallb (fun x =>
    forallb (fun y =>
      negb (bool_decide (state_of x.2 = AUTH)
            && bool_decide (state_of y.2 = AUTH)
            && bool_decide (user_id x.2 = user_id y.2))
      || bool_decide (x.1 = y.1)) l) l.

(** Every session in state AUTH has the registry entry of its user id. *)
Definition registered (σ : Server) : Prop :=
  forall h s,
    heap σ !! h = Some s -> state_of s = AUTH ->
    exists u, user_id s = Some u
              /\ Py.dict_get (_online_users σ) u = Some h.

Definition not_authenticated : json :=
  status_message "error" "Not authenticated. Send 'login' or 'signup'.".

(** The envelope the router delivers. *)
Definition new_message (sender_id sender_name text : json) : json :=
  JObj [("type", JStr "new_message");
        ("payload",
         JObj [("sender_id", sender_id); ("sender_name", sender_name);
               ("text", text)])].

Definition offline_reply : json :=
  status_message "info" "Recipient is offline. Message stored.".

Definition unknown_command (type : string) : json :=
  status_message "error" ("Unknown command type: " ++ type).

(** A sign-up request and a login request with their fields. *)
Definition is_signup (o : list (string * json)) (name em pw : string)
  : Prop :=
  Py.dict_get o "type" = Some (JStr "signup")
  /\ exists p, Py.dict_get o "payload" = Some (JObj p)
               /\ Py.dict_get p "full_name" = Some (JStr name)
               /\ Py.dict_get p "email" = Some (JStr em)
               /\ Py.dict_get p "password" = Some (JStr pw).

Definition is_login (o : list (string * json)) (em pw : string) : Prop :=
  Py.dict_get o "type" = Some (JStr "login")
  /\ exists p, Py.dict_get o "payload" = Some (JObj p)
               /\ Py.dict_get p "email" = Some (JStr em)
               /\ Py.dict_get p "password" = Some (JStr pw).


Definition login_failed : json :=
  status_message "error" "Login failed. Invalid credentials.".

Definition signup_ok : json :=
  status_message "ok" "Sign-up successful. Please login to authenticate.".

Definition signup_failed : json :=
  status_message "error" "Sign-up failed. Email already exists.".

(** The row [add_user] inserts for a sign-up. *)
Definition new_user (name em pw salt : string) : Database.user_row :=
  Database.mk_user (Database._generate_user_id (normalize em)) (Some name)
                   (normalize em) (bcrypt_hashpw pw salt).

(** The response to a successful login. *)
Definition login_ok (row : Database.user_row) : json :=
  response
    [("status", JStr "ok");
     ("message",
      JStr ("Login successful. Welcome, "
            ++ Py.str_opt (Database.full_name row) ++ "!"));
     ("user_info",
      JObj [("id", JStr (Database.id row));
            ("full_name", Py.of_opt (Database.full_name row));
            ("email", JStr (Database.email row))])].

(** The constraints of the [users] table: the e-mail column is UNIQUE and
    the id column is the PRIMARY KEY. *)
Definition table_ok (t : list Database.user_row) : Prop :=
  NoDup (Database.email <$> t) /\ NoDup (Database.id <$> t).

(** The envelope [handle_connection] opens with. *)
Definition handshake_start : json :=
  JObj [("type", JStr "handshake_start");
        ("payload", JObj [("public_key", JStr public_key_pem)])].

(** An [encrypted_payload] frame to a session that has its secure
    channel. *)
Definition encrypted_to (σ : Server) (hf : nat * frame) : Prop :=
  (exists data, hf.2 = Encrypted data)
  /\ exists s key, heap σ !! hf.1 = Some s /\ secure_channel s = Some key.

(** What a handler does to the tables and to the wire: [add_user] under a
    normalised address returned an id or the users are as they were; a
    message was stored under the user id of a session or the messages are
    as they were; frames were appended, each encrypted and written to a
    session that has its channel. *)
Definition signed_up (t t' : list Database.user_row) : Prop :=
  exists name em pw uid,
    Database.add_user t name (normalize em) pw = inr (t', Some uid).

Definition stored (σ : Server) (m m' : list Database.message_row) : Prop :=
  exists h s recipient payload,
    heap σ !! h = Some s
    /\ Database.store_message m (user_id s) recipient payload = inr m'.

Definition effect (σ σ' : Server) : Prop :=
  (users σ' = users σ \/ signed_up (users σ) (users σ'))
  /\ (messages σ' = messages σ \/ stored σ (messages σ) (messages σ'))
  /\ exists l, wire σ' = (wire σ ++ l)%list /\ Forall (encrypted_to σ) l.

(** How one event moves a session object: not at all; past its [finally]
    block; out of the handshake, with a channel of 32 bytes; or, by a
    login, to the identity of a user row. *)
Inductive session_step (t : list Database.user_row) (s : ClientSession)
  : ClientSession -> Prop :=
  | stays : session_step t s s
  | closes : at_stage s <> Closed -> session_step t s (at_ s Closed)
  | keyed c :
      at_stage s = AwaitKey -> length c = 32%nat ->
      session_step t s (at_ (with_channel s c) Dispatch)
  | logs_in row :
      at_stage s = Dispatch -> is_authenticated s = false -> row ∈ t ->
      session_step t s (logged_in s row).

(** The session an event belongs to. *)
Definition handle_of (e : event) : nat :=
  match e with
  | Accept h => h
  | Recv h _ _ => h
  end.

(** The order in which a session passes through its states. *)
Definition rank (st : session_state) : nat :=
  match st with
  | HANDSHAKE => 0
  | UNAUTH => 1
  | AUTH => 2
  | CLOSED => 3
  end.

(** How the tables and the session objects hang together: the users table
    meets its constraints; every row carries a normalised address and
    the id generated from it; a session with a user id carries the id,
    the name and the address of a row; the sender of every stored message
    is the id of a row. *)
Record db_inv (σ : Server) : Prop := {
  db_table : table_ok (users σ);
  db_rows : forall row,
    row ∈ users σ ->
    Database.id row = Database._generate_user_id (Database.email row)
    /\ normalize (Database.email row) = Database.email row;
  db_sessions : forall h s u,
    heap σ !! h = Some s -> user_id s = Some u ->
    exists row, row ∈ users σ /\ Database.id row = u
                /\ full_name s = Database.full_name row
                /\ email s = Some (Database.email row);
  db_senders : forall m,
    m ∈ messages σ ->
    exists row, row ∈ users σ /\ Database.sender_id m = Database.id row
}.

(** What a connection has been sent: nothing before it is accepted; the
    plaintext [handshake_start] alone while its session has no secure
    channel; and once the session has its channel, after the
    [handshake_start] only encrypted frames, the first of which is
    [handshake_complete]. A session in the handshake has no channel. *)
Definition framed (σ : Server) (h : nat) : Prop :=
  match heap σ !! h with
  | None => sent_to h σ = []
  | Some s =>
      (at_stage s = AwaitKey -> secure_channel s = None)
      /\ match secure_channel s with
         | None => sent_to h σ = [Plaintext handshake_start]
         | Some _ =>
             exists ds,
               sent_to h σ
               = Plaintext handshake_start
                 :: Encrypted handshake_complete :: (Encrypted <$> ds)
         end
  end.

End Vocabulary.

(** ** Events and session objects of the concrete runs *)

Module Runs.

Definition envelope (type : string) (payload : list (string * json)) : line :=
  Envelope (JObj [("type", JStr type); ("payload", JObj payload)]).

(** A [key_exchange] whose key decodes to 32 bytes. *)
Definition key_exchange : line :=
  envelope "key_exchange"
    [("key", JStr "AAAAAAAAAAAAAAAAAAAAAAAAAAAAAAAAAAAAAAAAAAA=")].

Definition signup (name em pw : string) : line :=
  envelope "signup"
    [("full_name", JStr name); ("email", JStr em); ("password", JStr pw)].

Definition login (em pw : string) : line :=
  envelope "login" [("email", JStr em); ("password", JStr pw)].

Definition chat (recipient text : string) : line :=
  envelope "chat" [("recipient_id", JStr recipient); ("text", JStr text)].

Definition alice_id : string := "daae19f7-d249-58a6-ab8c-7587166b231e".

(** Alice signs up and logs in on connection 0, then logs in again on
    connection 1. *)
Definition double_login : list event :=
  [Accept 0; Recv 0 key_exchange "-"; Recv 0 (signup "Alice" "a@x" "p1") "s";
   Recv 0 (login "a@x" "p1") "-";
   Accept 1; Recv 1 key_exchange "-"; Recv 1 (login "a@x" "p1") "-"].

Definition zero_key : list byte := replicate 32 Byte.x00.

Definition bob_id : string := "883c1340-39b9-57b2-b390-26bb0a7365c0".

(** The session objects of a connection after the handshake, and of Alice
    and Bob once logged in. *)
Definition fresh_session : ClientSession :=
  mk_session None None None false (Some zero_key) Dispatch.

Definition alice_session : ClientSession :=
  mk_session (Some alice_id) (Some "Alice") (Some "a@x") true
             (Some zero_key) Dispatch.

Definition bob_session : ClientSession :=
  mk_session (Some bob_id) (Some "Bob") (Some "b@x") true
             (Some zero_key) Dispatch.

Definition connected : list event := [Accept 0; Recv 0 key_exchange "-"].

Definition alice_online : list event :=
  [Accept 0; Recv 0 key_exchange "-"; Recv 0 (signup "Alice" "a@x" "p1") "s";
   Recv 0 (login "a@x" "p1") "-"].

Definition both_online : list event :=
  alice_online
  ++ [Accept 1; Recv 1 key_exchange "-"; Recv 1 (signup "Bob" "b@x" "p2") "s";
      Recv 1 (login "b@x" "p2") "-"].


(** A chat whose payload also claims to come from somebody else. *)
Definition spoofed_chat : list (string * json) :=
  [("type", JStr "chat");
   ("payload",
    JObj [("sender_id", JStr "mallory"); ("sender_name", JStr "Mallory");
          ("recipient_id", JStr bob_id); ("text", JStr "hi")])].

Definition chat_to (recipient text : string) : list (string * json) :=
  [("type", JStr "chat");
   ("payload", JObj [("recipient_id", JStr recipient); ("text", JStr text)])].

(** What the client sends when its window is closed. *)
Definition logout : list (string * json) := [("type", JStr "logout")].

Definition alice_row : Database.user_row :=
  Database.mk_user alice_id (Some "Alice") "a@x" "p1".

Definition login_alice : list (string * json) :=
  [("type", JStr "login");
   ("payload", JObj [("email", JStr "a@x"); ("password", JStr "p1")])].

Definition signup_bob : list (string * json) :=
  [("type", JStr "signup");
   ("payload",
    JObj [("full_name", JStr "Bob"); ("email", JStr " B@x ");
          ("password", JStr "p2")])].

(** A [key_exchange] whose key decodes to three bytes. *)
Definition short_key_exchange : list (string * json) :=
  [("type", JStr "key_exchange"); ("payload", JObj [("key", JStr "AAAA")])].

(** Alice has signed up on connection 0 and not logged in yet. *)
Definition alice_signed_up : list event :=
  connected ++ [Recv 0 (signup "Alice" "a@x" "p1") "s"].

Definition signup_alice_again : list (string * json) :=
  [("type", JStr "signup");
   ("payload",
    JObj [("full_name", JStr "Eve"); ("email", JStr " A@X");
          ("password", JStr "zz")])].

Definition login_bob : list (string * json) :=
  [("type", JStr "login");
   ("payload", JObj [("email", JStr "b@X"); ("password", JStr "p2")])].

End Runs.

(** * Properties *)

(** ** Normalisation of e-mail addresses and user ids *)

Module PyStrFacts.
Import PyStr.

Lemma lower_char_idem c : lower_char (lower_char c) = lower_char c.
Proof. destruct c as [[] [] [] [] [] [] [] []]; reflexivity. Qed.

Lemma isspace_lower_char c : isspace (lower_char c) = isspace c.
Proof. destruct c as [[] [] [] [] [] [] [] []]; reflexivity. Qed.

Lemma lower_idem s : lower (lower s) = lower s.
Proof. induction s as [|c r IH]; simpl; [done|]. by rewrite lower_char_idem, IH. Qed.

Lemma lstrip_lower s : lstrip (lower s) = lower (lstrip s).
Proof.
  induction s as [|c r IH]; simpl; [done|].
  rewrite isspace_lower_char. by destruct (isspace c).
Qed.

Lemma rstrip_lower s : rstrip (lower s) = lower (rstrip s).
Proof.
  induction s as [|c r IH]; simpl; [done|].
  rewrite IH, isspace_lower_char.
  destruct (rstrip r); simpl; [|done]. by destruct (isspace c).
Qed.

Lemma strip_lower s : strip (lower s) = lower (strip s).
Proof. unfold strip. by rewrite lstrip_lower, rstrip_lower. Qed.

Lemma lstrip_idem s : lstrip (lstrip s) = lstrip s.
Proof.
  induction s as [|c r IH]; simpl; [done|].
  destruct (isspace c) eqn:E; [done|]. simpl. by rewrite E.
Qed.

Lemma rstrip_idem s : rstrip (rstrip s) = rstrip s.
Proof.
  induction s as [|c r IH]; simpl; [done|].
  destruct (rstrip r) as [|c' r'] eqn:E.
  - destruct (isspace c) eqn:Ec; simpl; [done|]. by rewrite Ec.
  - simpl in *. by rewrite IH.
Qed.

Lemma lstrip_rstrip s : lstrip (rstrip s) = rstrip (lstrip s).
Proof.
  induction s as [|c r IH]; simpl; [done|].
  destruct (isspace c) eqn:Ec.
  - destruct (rstrip r) as [|c' r'] eqn:E.
    + rewrite <- IH. done.
    + rewrite <- IH. simpl. by rewrite Ec.
  - destruct (rstrip r) as [|c' r'] eqn:E; simpl; by rewrite Ec, ?E.
Qed.

Lemma strip_idem s : strip (strip s) = strip s.
Proof.
  unfold strip. by rewrite lstrip_rstrip, lstrip_idem, rstrip_idem.
Qed.

End PyStrFacts.

Lemma normalize_idem e : normalize (normalize e) = normalize e.
Proof.
  unfold normalize.
  by rewrite PyStrFacts.strip_lower, PyStrFacts.strip_idem,
    PyStrFacts.lower_idem.
Qed.

(** Trimming and lowercasing commute, so the order in which the
    specification's [normalize] applies them does not matter. *)
Lemma normalize_order e : normalize e = PyStr.strip (PyStr.lower e).
Proof. unfold normalize. by rewrite PyStrFacts.strip_lower. Qed.


(** The derivation on the specification's example: uuid5(DNS, "a@x"). *)
Example user_id_example :
  Database._generate_user_id "  A@x " = "daae19f7-d249-58a6-ab8c-7587166b231e".
Proof. vm_compute. reflexivity. Qed.

(** ** The secure channel *)

Section SecureChannelFacts.

Context `{!Libraries} `{!LibrariesLaws}.

Lemma flip_bit_length i bs : length (flip_bit i bs) = length bs.
Proof. unfold flip_bit. apply length_alter. Qed.

Lemma flip_bit_app_l i (a b : list byte) :
  (i < 8 * length a)%nat -> flip_bit i (a ++ b) = (flip_bit i a ++ b)%list.
Proof.
  intros Hi. unfold flip_bit. apply alter_app_l.
  apply Nat.Div0.div_lt_upper_bound. lia.
Qed.

Lemma flip_bit_app_r j (a b : list byte) :
  flip_bit (8 * length a + j) (a ++ b) = (a ++ flip_bit j b)%list.
Proof.
  unfold flip_bit.
  replace ((8 * length a + j) `mod` 8)%nat with (j `mod` 8)%nat
    by (rewrite Nat.add_comm, Nat.mul_comm; by rewrite Nat.Div0.mod_add).
  replace ((8 * length a + j) `div` 8)%nat with (length a + j `div` 8)%nat
    by (rewrite (Nat.mul_comm 8), Nat.div_add_l by lia; done).
  apply alter_app_r.
Qed.

Lemma decrypt_blob channel (nonce data : list byte) :
  length nonce = 12%nat ->
  decrypt channel (b64encode (nonce ++ data)) =
  match aesgcm_decrypt channel nonce data with
  | None => inl ValueError
  | Some decrypted_bytes =>
      match utf8_decode decrypted_bytes with
      | None => inl ValueError
      | Some s => inr s
      end
  end.
Proof.
  intros Hn. unfold decrypt. rewrite b64decode_b64encode.
  rewrite take_app_length' by done. rewrite drop_app_length' by done. done.
Qed.

(** C2. Over a channel built from a 32-byte key, [decrypt] returns the
    plaintext [encrypt] was given, whatever 12-byte nonce was drawn; and
    when one bit of the base64-decoded blob is inverted, [decrypt] raises
    its [ValueError]. *)
Theorem decrypt_encrypt_and_tamper
    (key nonce : list byte) (m : string) (channel : list byte) :
  SecureChannel key = inr channel ->
  length nonce = 12%nat ->
  decrypt channel (encrypt channel nonce m) = inr m
  /\ forall blob i,
       b64decode (encrypt channel nonce m) = Some blob ->
       (i < 8 * length blob)%nat ->
       decrypt channel (b64encode (flip_bit i blob)) = inl ValueError.
Proof.
  intros Hk Hn. unfold SecureChannel in Hk. case_bool_decide; [|done].
  simplify_eq. split.
  - unfold encrypt. rewrite decrypt_blob by done.
    rewrite aesgcm_decrypt_encrypt by done. by rewrite utf8_decode_encode.
  - intros blob i Hb Hi. unfold encrypt in Hb.
    rewrite b64decode_b64encode in Hb. simplify_eq.
    set (ct := aesgcm_encrypt channel nonce (PyStr.encode_utf8 m)) in *.
    destruct (decide (i < 8 * length nonce)%nat) as [Hlt|Hge].
    + rewrite flip_bit_app_l by done.
      rewrite decrypt_blob by (by rewrite flip_bit_length).
      unfold ct. by rewrite aesgcm_tag_nonce.
    + rewrite length_app in Hi.
      replace i with (8 * length nonce + (i - 8 * length nonce))%nat by lia.
      rewrite flip_bit_app_r. rewrite decrypt_blob by done.
      unfold ct. rewrite aesgcm_tag_data; [done..|]. fold ct. lia.
Qed.

End SecureChannelFacts.

(** ** The executable instance satisfies the laws of the libraries *)

Module ModelFacts.
Import Model.

Local Open Scope N_scope.

Local Ltac Zify.zify_post_hook ::= Z.to_euclidean_division_equations.

Lemma below_64 (P : N -> Prop) :
  Forall (fun k => P (N.of_nat k)) (seq 0 64) -> forall k, k < 64 -> P k.
Proof.
  intros HP k Hk. rewrite Forall_forall in HP.
  rewrite <- (N2Nat.id k). apply HP, elem_of_seq. lia.
Qed.

Lemma b64_index_char k : k < 64 -> b64_index (b64_char k) = Some k.
Proof.
  revert k. apply below_64.
  apply (bool_decide_unpack _). vm_compute. reflexivity.
Qed.

Lemma b64_char_not_pad k : k < 64 -> b64_char k <> "="%char.
Proof.
  revert k. apply below_64.
  apply (bool_decide_unpack _). vm_compute. reflexivity.
Qed.

Lemma byte_of_to_N b : PyStr.byte_of_N (Byte.to_N b) = b.
Proof. destruct b; reflexivity. Qed.

Lemma byte_of_N_eq n b : n = Byte.to_N b -> PyStr.byte_of_N n = b.
Proof. intros ->. apply byte_of_to_N. Qed.

Lemma to_N_lt b : Byte.to_N b < 256.
Proof. pose proof (Byte.to_N_bounded b). lia. Qed.

Lemma decode_group1 a :
  base64_decode (base64_encode [a]) = Some [a].
Proof.
  pose proof (to_N_lt a). cbn [base64_encode base64_decode].
  set (n := Byte.to_N a * 16).
  rewrite !b64_index_char by (subst n; lia).
  rewrite decide_True by done.
  do 2 f_equal. apply byte_of_N_eq. subst n. lia.
Qed.

Lemma decode_group2 a b :
  base64_decode (base64_encode [a; b]) = Some [a; b].
Proof.
  pose proof (to_N_lt a). pose proof (to_N_lt b).
  cbn [base64_encode base64_decode].
  set (n := (Byte.to_N a * 256 + Byte.to_N b) * 4).
  rewrite !b64_index_char by (subst n; lia).
  rewrite decide_False
    by (intros [E _]; revert E; apply b64_char_not_pad; subst n; lia).
  rewrite decide_True by done.
  repeat f_equal; apply byte_of_N_eq; subst n; lia.
Qed.

Lemma decode_group3 a b c r :
  base64_decode (base64_encode (a :: b :: c :: r)) =
  (fun bs => a :: b :: c :: bs) <$> base64_decode (base64_encode r).
Proof.
  pose proof (to_N_lt a). pose proof (to_N_lt b). pose proof (to_N_lt c).
  cbn [base64_encode base64_decode].
  set (n := Byte.to_N a * 65536 + Byte.to_N b * 256 + Byte.to_N c).
  rewrite !b64_index_char by (subst n; lia).
  rewrite decide_False
    by (intros [E _]; revert E; apply b64_char_not_pad; subst n; lia).
  rewrite decide_False
    by (intros [E _]; revert E; apply b64_char_not_pad; subst n; lia).
  destruct (base64_decode (base64_encode r)) as [bs|]; [|done]. simpl.
  repeat f_equal; apply byte_of_N_eq; subst n; lia.
Qed.

Lemma base64_decode_encode bs :
  base64_decode (base64_encode bs) = Some bs.
Proof.
  cut (base64_decode (base64_encode bs) = Some bs
       /\ (forall a, base64_decode (base64_encode (a :: bs)) = Some (a :: bs))
       /\ (forall a b, base64_decode (base64_encode (a :: b :: bs))
                       = Some (a :: b :: bs))); [tauto|].
  induction bs as [|c r (IH1 & IH2 & IH3)].
  - split; [done|]. split; [apply decode_group1 | apply decode_group2].
  - split; [apply IH2|]. split; [intros a; apply IH3|].
    intros a b. by rewrite decode_group3, IH1.
Qed.

Lemma decode_utf8_char c r :
  decode_utf8 (PyStr.utf8_char c ++ r) = String c <$> decode_utf8 r.
Proof. destruct c as [[] [] [] [] [] [] [] []]; reflexivity. Qed.

Lemma decode_utf8_encode s : decode_utf8 (PyStr.encode_utf8 s) = Some s.
Proof.
  induction s as [|c r IH]; simpl; [done|].
  by rewrite decode_utf8_char, IH.
Qed.

Local Close Scope N_scope.

Lemma flip_byte_neq j b : j < 8 -> flip_byte j b <> b.
Proof.
  intros Hj. do 8 (destruct j as [|j]; [destruct b; discriminate|]). lia.
Qed.

Lemma flip_bit_neq i (bs : list byte) : i < 8 * length bs -> flip_bit i bs <> bs.
Proof.
  intros Hi E. unfold flip_bit in E.
  assert (Hq : i `div` 8 < length bs) by (apply Nat.Div0.div_lt_upper_bound; lia).
  destruct (lookup_lt_is_Some_2 bs _ Hq) as [b Hb].
  assert (Ha := list_lookup_alter_eq (flip_byte (i `mod` 8)) bs (i `div` 8)).
  rewrite E, Hb in Ha.
  change (Some b = Some (flip_byte (i `mod` 8) b)) in Ha. injection Ha as Ha.
  symmetry in Ha. revert Ha. apply flip_byte_neq.
  apply (Nat.mod_upper_bound i 8). lia.
Qed.

Lemma aead_decrypt_encrypt key nonce data :
  aead_decrypt key nonce (aead_encrypt key nonce data) = Some data.
Proof.
  unfold aead_decrypt.
  assert (E : take ((length (aead_encrypt key nonce data)
                     - (length nonce + length key)) `div` 2)
                (aead_encrypt key nonce data) = data).
  { unfold aead_encrypt. rewrite !length_app.
    replace ((length data + (length data + (length nonce + length key))
              - (length nonce + length key)) `div` 2) with (length data)
      by (rewrite <- (Nat.div_mul (length data) 2) at 1 by lia; f_equal; lia).
    by rewrite take_app_length. }
  rewrite E. by rewrite decide_True.
Qed.

Lemma aead_tag_nonce key nonce data i :
  i < 8 * length nonce ->
  aead_decrypt key (flip_bit i nonce) (aead_encrypt key nonce data) = None.
Proof.
  intros Hi. unfold aead_decrypt. rewrite decide_False; [done|].
  intros E. unfold aead_encrypt in E at 1.
  rewrite (flip_bit_length i nonce) in E.
  match type of E with
  | _ = aead_encrypt _ _ (take ?k ?c) =>
      assert (Ek : take k c = data)
  end.
  { unfold aead_encrypt. rewrite !length_app.
    replace ((length data + (length data + (length nonce + length key))
              - (length nonce + length key)) `div` 2) with (length data)
      by (rewrite <- (Nat.div_mul (length data) 2) at 1 by lia; f_equal; lia).
    by rewrite take_app_length. }
  rewrite Ek in E. unfold aead_encrypt in E.
  do 2 apply app_inv_head in E. apply app_inv_tail in E.
  symmetry in E. revert E. by apply flip_bit_neq.
Qed.

Lemma aead_tag_data key nonce data i :
  i < 8 * length (aead_encrypt key nonce data) ->
  aead_decrypt key nonce (flip_bit i (aead_encrypt key nonce data)) = None.
Proof.
  intros Hi. unfold aead_decrypt. rewrite decide_False; [done|].
  rewrite flip_bit_length.
  set (c := aead_encrypt key nonce data) in *.
  assert (Ek : (length c - (length nonce + length key)) `div` 2 = length data).
  { unfold c, aead_encrypt. rewrite !length_app.
    rewrite <- (Nat.div_mul (length data) 2) at 3 by lia. f_equal. lia. }
  rewrite Ek. intros E.
  set (d := take (length data) (flip_bit i c)) in *.
  assert (Hl : length d = length data).
  { unfold d. rewrite length_take, flip_bit_length.
    unfold c, aead_encrypt. rewrite !length_app. lia. }
  assert (Hd : d = data).
  { destruct (decide (i `div` 8 < length data)) as [Hq|Hq].
    - assert (E1 : drop (length data) (flip_bit i c) = (d ++ nonce ++ key)%list).
      { rewrite E. unfold aead_encrypt. rewrite <- Hl. apply drop_app_length. }
      assert (E2 : drop (length data) (flip_bit i c)
                   = (data ++ nonce ++ key)%list).
      { unfold flip_bit. rewrite drop_alter_lt by done.
        unfold c, aead_encrypt. apply drop_app_length. }
      rewrite E1 in E2. by apply app_inv_tail in E2.
    - unfold d, flip_bit. rewrite take_alter_ge by lia.
      unfold c, aead_encrypt. by rewrite take_app_length. }
  rewrite Hd in E. fold c in E. revert E. by apply flip_bit_neq.
Qed.

#[export] Instance laws : LibrariesLaws.
Proof.
  split.
  - apply base64_decode_encode.
  - apply decode_utf8_encode.
  - intros. apply aead_decrypt_encrypt.
  - intros. by apply aead_tag_nonce.
  - intros. by apply aead_tag_data.
Qed.

End ModelFacts.

(** ** Dictionaries *)

Module PyFacts.
Import Py.

Section Dict.

Context {A : Type}.
Implicit Types (d : list (string * A)) (k : string) (v : A).

Lemma dict_get_set_eq d k v : dict_get (dict_set d k v) k = Some v.
Proof.
  induction d as [|[k' v'] r IH]; simpl.
  - by rewrite decide_True.
  - destruct (decide (k' = k)) as [->|Hne]; simpl.
    + by rewrite decide_True.
    + by rewrite decide_False.
Qed.

Lemma dict_get_set_ne d k k' v :
  k <> k' -> dict_get (dict_set d k v) k' = dict_get d k'.
Proof.
  intros Hne. induction d as [|[k0 v0] r IH]; simpl.
  - by rewrite decide_False.
  - destruct (decide (k0 = k)) as [->|Hk]; simpl.
    + by rewrite !decide_False.
    + by rewrite IH.
Qed.

Lemma dict_get_del_ne d k k' :
  k <> k' -> dict_get (dict_del d k) k' = dict_get d k'.
Proof.
  intros Hne. induction d as [|[k0 v0] r IH]; simpl; [done|].
  destruct (decide (k0 = k)) as [->|Hk]; simpl.
  - by rewrite decide_False.
  - by rewrite IH.
Qed.

Lemma dict_get_None d k : k ∉ d.*1 -> dict_get d k = None.
Proof.
  induction d as [|[k0 v0] r IH]; simpl; [done|].
  intros Hk. rewrite not_elem_of_cons in Hk. destruct Hk as [Hk Hr].
  rewrite decide_False by done. auto.
Qed.

Lemma dict_get_elem d k v : dict_get d k = Some v -> (k, v) ∈ d.
Proof.
  induction d as [|[k0 v0] r IH]; simpl; [done|].
  destruct (decide (k0 = k)) as [->|Hk].
  - intros [= ->]. left.
  - intros H. right. auto.
Qed.

Lemma dict_elem_get d k v :
  NoDup d.*1 -> (k, v) ∈ d -> dict_get d k = Some v.
Proof.
  induction d as [|[k0 v0] r IH]; simpl.
  - intros _ H. by apply elem_of_nil in H.
  - rewrite NoDup_cons. intros [Hk0 Hr] H.
    apply elem_of_cons in H as [[= -> ->]|H].
    + by rewrite decide_True.
    + rewrite decide_False; [auto|].
      intros ->. apply Hk0. apply list_elem_of_fmap. by exists (k, v).
Qed.

Lemma dict_del_keys d k x : x ∈ (dict_del d k).*1 -> x ∈ d.*1.
Proof.
  induction d as [|[k0 v0] r IH]; simpl; [done|].
  destruct (decide (k0 = k)) as [->|Hk]; simpl.
  - by right.
  - rewrite !elem_of_cons. intros [->|H]; auto.
Qed.

Lemma dict_get_del_eq d k : NoDup d.*1 -> dict_get (dict_del d k) k = None.
Proof.
  induction d as [|[k0 v0] r IH]; simpl; [done|].
  rewrite NoDup_cons. intros [Hk0 Hr].
  destruct (decide (k0 = k)) as [->|Hk]; simpl.
  - by apply dict_get_None.
  - rewrite decide_False by done. auto.
Qed.

Lemma dict_del_NoDup d k : NoDup d.*1 -> NoDup (dict_del d k).*1.
Proof.
  induction d as [|[k0 v0] r IH]; simpl; [done|].
  rewrite NoDup_cons. intros [Hk0 Hr].
  destruct (decide (k0 = k)) as [->|Hk]; simpl; [done|].
  apply NoDup_cons. split; [|auto].
  intros H. by apply Hk0, (dict_del_keys r k).
Qed.

Lemma dict_set_keys d k v x : x ∈ (dict_set d k v).*1 -> x = k \/ x ∈ d.*1.
Proof.
  induction d as [|[k0 v0] r IH]; simpl.
  - rewrite list_elem_of_singleton. auto.
  - destruct (decide (k0 = k)) as [->|Hk]; simpl; [auto|].
    rewrite !elem_of_cons. intros [->|H]; [auto|].
    destruct (IH H); auto.
Qed.

Lemma dict_set_NoDup d k v : NoDup d.*1 -> NoDup (dict_set d k v).*1.
Proof.
  induction d as [|[k0 v0] r IH]; simpl.
  - intros _. apply NoDup_singleton.
  - rewrite NoDup_cons. intros [Hk0 Hr].
    destruct (decide (k0 = k)) as [->|Hk]; simpl.
    + by apply NoDup_cons.
    + apply NoDup_cons. split; [|auto].
      intros H. apply dict_set_keys in H as [->|H]; done.
Qed.

End Dict.

End PyFacts.

(** Destructs what the handler under inspection branches on. *)
Ltac branch :=
  match goal with
  | |- context [match ?x with _ => _ end] =>
      lazymatch x with
      | context [match _ with _ => _ end] => fail
      | _ => destruct x eqn:?
      end
  end.

(** ** Well-formed server states *)

Section Invariant.

Context `{!Libraries}.

Lemma quiet_refl σ : quiet σ σ.
Proof. by repeat split. Qed.

Lemma quiet_inv σ σ' : quiet σ σ' -> inv σ -> inv σ'.
Proof.
  intros (Hh & Hr & Hu) [I1 I2 I6 I3 I4 I5].
  split; rewrite ?Hh, ?Hr; auto.
Qed.

Lemma send_json_cases h data σ :
  send_json h data σ = (inl OtherError, σ)
  \/ send_json h data σ = (inr tt, σ)
  \/ send_json h data σ = (inr tt, write h (Encrypted data) σ).
Proof.
  unfold send_json, bind, self, modify, ret, raise.
  destruct (heap σ !! h) as [s|]; [|eauto].
  destruct (secure_channel s); eauto.
Qed.

Lemma send_json_quiet h data σ : quiet σ (send_json h data σ).2.
Proof.
  destruct (send_json_cases h data σ) as [->|[->| ->]];
    by repeat split.
Qed.

(** A session that exists never fails to send. *)
Lemma send_json_returns h data σ s :
  heap σ !! h = Some s ->
  exists σ', send_json h data σ = (inr tt, σ') /\ quiet σ σ'.
Proof.
  intros Hh. unfold send_json, bind, self, modify, ret. rewrite Hh.
  destruct (secure_channel s); eexists; (split; [done|by repeat split]).
Qed.

End Invariant.

(** ** Handlers that leave sessions and registry alone *)

Section Handlers.

Context `{!Libraries}.

Lemma quiet_trans σ1 σ2 σ3 : quiet σ1 σ2 -> quiet σ2 σ3 -> quiet σ1 σ3.
Proof.
  intros (Hh & Hr & Hu) (Hh' & Hr' & Hu'). repeat split; [congruence..|auto].
Qed.

Lemma send_json_quiet_eq h data σ r σ' :
  send_json h data σ = (r, σ') -> quiet σ σ'.
Proof. intros E. change σ' with (r, σ').2. rewrite <- E. apply send_json_quiet. Qed.

Lemma uuid_str_truthy i : Py.truthy (Uuid.uuid_str i) = true.
Proof.
  unfold Py.truthy, Uuid.uuid_str. rewrite bool_decide_eq_false_2; [done|].
  destruct (take 8 (Uuid.hex32 i)); discriminate.
Qed.

Lemma add_user_rows table name em pw table' o :
  Database.add_user table name em pw = inr (table', o) ->
  Forall row_ok table -> Forall row_ok table'.
Proof.
  unfold Database.add_user. intros E Ht.
  destruct (Database.bind_text name); [done|].
  destruct (Database.conflicts _ _ _); simplify_eq; [done|].
  apply Forall_app. split; [done|]. apply Forall_singleton.
  apply uuid_str_truthy.
Qed.

Ltac quiet_send :=
  repeat match goal with
         | E : send_json _ _ _ = (_, _) |- _ =>
             apply send_json_quiet_eq in E
         end;
  eauto using quiet_refl, quiet_trans, send_json_quiet.

Lemma route_chat_message_quiet h envelope σ :
  quiet σ (route_chat_message h envelope σ).2.
Proof.
  unfold route_chat_message, try_except, bind, lift, gets, modify, ret, raise,
    self, UserRegistry.get_session_by_id.
  repeat (branch; simplify_eq/=); quiet_send.
  all: match goal with
       | |- quiet ?σ0 _ =>
           eapply (quiet_trans σ0 (set_messages _ σ0));
             [by repeat split|quiet_send]
       end.
Qed.

Lemma _perform_signup_quiet h envelope salt σ :
  quiet σ (_perform_signup h envelope salt σ).2.
Proof.
  unfold _perform_signup, try_except, bind, lift, gets, modify, ret, raise.
  repeat (branch; simplify_eq/=); quiet_send.
  all: match goal with
       | E : Database.add_user _ _ _ _ = inr ?p |- quiet ?σ0 _ =>
           eapply (quiet_trans σ0 (set_users p.1 σ0));
             [repeat split; destruct p; by eapply add_user_rows
             |quiet_send]
       end.
Qed.

Lemma _process_message_quiet h envelope σ :
  quiet σ (_process_message h envelope σ).2.
Proof.
  unfold _process_message, bind, lift, gets, UserRegistry.get_online_users_list.
  destruct (Py.get envelope "type") as [e|t]; simpl; [apply quiet_refl|].
  destruct (Py.eq_str t "chat"); [apply route_chat_message_quiet|].
  destruct (Py.eq_str t "whoisonline"); apply send_json_quiet.
Qed.

End Handlers.

(** ** Login, handshake and teardown *)

Section Transitions.

Context `{!Libraries}.

Lemma authenticate_cases em pw σ :
  (exists e, authenticate em pw σ = (inl e, σ))
  \/ authenticate em pw σ = (inr None, σ)
  \/ exists row, authenticate em pw σ = (inr (Some row), σ)
                 /\ row ∈ users σ.
Proof.
  unfold authenticate, bind, gets, lift, ret.
  destruct (Database.get_user_by_email _ _) as [row|] eqn:E; [|auto].
  destruct (check_password pw _) as [e|[]]; simpl; eauto.
  right. right. exists row. split; [done|].
  apply list_elem_of_In. eapply find_some, E.
Qed.

Lemma update_self_eq h f σ s :
  heap σ !! h = Some s ->
  update_self h f σ = (inr tt, set_heap (fun m => <[h := f s]> m) σ).
Proof.
  intros Hh. unfold update_self, modify, set_heap. by rewrite Hh.
Qed.

Ltac reraise e :=
  destruct (key_or_type_error e);
  [apply or_introl, send_json_quiet | apply or_introl, quiet_refl].

Lemma _perform_login_cases h envelope σ s :
  heap σ !! h = Some s ->
  quiet σ (_perform_login h envelope σ).2
  \/ exists row σ1,
       row ∈ users σ
       /\ _perform_login h envelope σ = (inr tt, σ1)
       /\ quiet (login_state h s row σ) σ1.
Proof.
  intros Hh. unfold _perform_login, try_except, bind, lift.
  destruct (Py.getitem envelope "payload") as [e|payload]; simpl;
    [reraise e|].
  destruct (Py.getitem payload "email") as [e|em]; simpl; [reraise e|].
  destruct (Py.getitem payload "password") as [e|pw]; simpl; [reraise e|].
  destruct (Py.as_str em) as [e|em_str]; simpl; [reraise e|].
  destruct (authenticate_cases (PyStr.lower (PyStr.strip em_str)) pw σ)
    as [[e ->]|[->|(row & -> & Hrow)]]; simpl.
  - reraise e.
  - left.
    destruct (send_json_returns h
                (status_message "error" "Login failed. Invalid credentials.")
                σ s Hh) as (σ1 & -> & Hq).
    done.
  - right. exists row.
    match goal with
    | |- context [send_json _ _ ?st] =>
        replace st with (login_state h s row σ)
          by (unfold login_state, set_online, set_heap; simpl; by rewrite Hh)
    end.
    match goal with
    | |- context [send_json ?a ?b ?c] =>
        destruct (send_json_returns a b c (logged_in s row))
          as (σ1 & -> & Hq); [simpl; by rewrite lookup_insert_eq|]
    end.
    by exists σ1.
Qed.

Lemma inv_update σ σ' h s' :
  inv σ ->
  heap σ' = <[h := s']> (heap σ) ->
  _online_users σ' = _online_users σ ->
  users σ' = users σ ->
  (at_stage s' = Dispatch -> is_Some (secure_channel s')) ->
  (is_authenticated s' = true ->
   at_stage s' <> AwaitKey
   /\ exists u, user_id s' = Some u /\ Py.truthy u = true) ->
  (is_authenticated s' = false ->
   user_id s' = None /\ full_name s' = None /\ email s' = None) ->
  (forall u, Py.dict_get (_online_users σ) u = Some h ->
             state_of s' = AUTH /\ user_id s' = Some u) ->
  inv σ'.
Proof.
  intros [I1 I2 I6 I3 I4 I5] Hh Hr Hu H1 H2 H6 H3.
  split; rewrite ?Hh, ?Hr, ?Hu; [| | | |done..].
  - intros h' s''. destruct (decide (h' = h)) as [->|Hne].
    + rewrite lookup_insert_eq. by intros [= <-].
    + rewrite lookup_insert_ne by done. apply I1.
  - intros h' s''. destruct (decide (h' = h)) as [->|Hne].
    + rewrite lookup_insert_eq. by intros [= <-].
    + rewrite lookup_insert_ne by done. apply I2.
  - intros h' s''. destruct (decide (h' = h)) as [->|Hne].
    + rewrite lookup_insert_eq. by intros [= <-].
    + rewrite lookup_insert_ne by done. apply I6.
  - intros u h' Hg. destruct (decide (h' = h)) as [->|Hne].
    + exists s'. rewrite lookup_insert_eq. split; [done|]. by apply H3.
    + rewrite lookup_insert_ne by done. by apply I3.
Qed.

Lemma inv_unauth_no_entry σ h s u :
  inv σ -> heap σ !! h = Some s -> state_of s <> AUTH ->
  Py.dict_get (_online_users σ) u = Some h -> False.
Proof.
  intros I Hh Hs Hg. destruct (inv_entry σ I u h Hg) as (s' & Hh' & Hs' & _).
  congruence.
Qed.

Lemma inv_login_state σ h s row :
  inv σ -> heap σ !! h = Some s -> state_of s = UNAUTH -> row ∈ users σ ->
  inv (login_state h s row σ).
Proof.
  intros I Hh Hs Hrow.
  assert (Hst : at_stage s = Dispatch).
  { unfold state_of in Hs. by destruct (at_stage s), (is_authenticated s). }
  destruct I as [I1 I2 I6 I3 I4 I5].
  assert (Hid : Py.truthy (Database.id row) = true).
  { rewrite Forall_forall in I5. by apply I5. }
  split; simpl.
  - intros h' s''. destruct (decide (h' = h)) as [->|Hne].
    + rewrite lookup_insert_eq. intros [= <-]. simpl. eauto.
    + rewrite lookup_insert_ne by done. apply I1.
  - intros h' s''. destruct (decide (h' = h)) as [->|Hne].
    + rewrite lookup_insert_eq. intros [= <-]. simpl. intros _.
      split; [by rewrite Hst|eauto].
    + rewrite lookup_insert_ne by done. apply I2.
  - intros h' s''. destruct (decide (h' = h)) as [->|Hne].
    + rewrite lookup_insert_eq. by intros [= <-].
    + rewrite lookup_insert_ne by done. apply I6.
  - intros u h'. destruct (decide (Database.id row = u)) as [<-|Hu].
    + rewrite PyFacts.dict_get_set_eq. intros [= <-].
      exists (logged_in s row). rewrite lookup_insert_eq.
      split; [done|]. split; [|done]. unfold state_of. simpl. by rewrite Hst.
    + rewrite PyFacts.dict_get_set_ne by done. intros Hg.
      destruct (I3 u h' Hg) as (s'' & Hh' & Hs'' & Hu').
      exists s''. rewrite lookup_insert_ne; [done|].
      intros ->. congruence.
  - by apply PyFacts.dict_set_NoDup.
  - done.
Qed.

Lemma teardown_eq h s σ :
  heap σ !! h = Some s -> teardown h σ = (inr tt, teardown_state h s σ).
Proof.
  intros Hh. unfold teardown, teardown_state, bind, self. rewrite Hh.
  destruct (is_authenticated s && _); simpl.
  - unfold update_self, modify, set_heap. simpl. by rewrite Hh.
  - unfold update_self, modify, set_heap. simpl. by rewrite Hh.
Qed.

Lemma teardown_missing h σ :
  heap σ !! h = None -> (teardown h σ).2 = σ.
Proof. intros Hh. unfold teardown, bind, self. by rewrite Hh. Qed.

Lemma inv_teardown_state σ h s :
  inv σ -> heap σ !! h = Some s -> inv (teardown_state h s σ).
Proof.
  intros I Hh. unfold teardown_state.
  destruct (is_authenticated s && _) eqn:Ea.
  - apply andb_true_iff in Ea as [Ea Eu].
    destruct (user_id s) as [u|] eqn:Eu'; [|done]. simpl.
    assert (I' : inv (set_online (fun d =>
                   match Py.dict_get d u with
                   | Some _ => Py.dict_del d u
                   | None => d
                   end) σ)).
    { destruct I as [I1 I2 I6 I3 I4 I5].
      split; simpl; [done|done|done| | |done].
      - intros u' h'. destruct (Py.dict_get (_online_users σ) u) eqn:Eg;
          [|apply I3].
        destruct (decide (u = u')) as [<-|Hne].
        + by rewrite PyFacts.dict_get_del_eq.
        + rewrite PyFacts.dict_get_del_ne by done. apply I3.
      - destruct (Py.dict_get (_online_users σ) u); [|done].
        by apply PyFacts.dict_del_NoDup. }
    eapply (inv_update _ _ h (at_ s Closed) I'); simpl; try done.
    { intros _. split; [done|]. by exists u. }
    { apply (inv_unset σ I h s Hh). }
    intros u'. destruct (Py.dict_get (_online_users σ) u) eqn:Eg.
    + intros Hg. destruct (decide (u = u')) as [<-|Hne].
      * rewrite PyFacts.dict_get_del_eq in Hg; [done|apply I].
      * rewrite PyFacts.dict_get_del_ne in Hg by done.
        destruct (inv_entry σ I u' h Hg) as (s' & ? & ? & ?). congruence.
    + intros Hg. destruct (inv_entry σ I u' h Hg) as (s' & ? & ? & ?).
      congruence.
  - eapply (inv_update _ _ h (at_ s Closed) I); simpl; try done.
    { intros Hau. split; [done|]. by apply (inv_auth σ I h s Hh). }
    { apply (inv_unset σ I h s Hh). }
    intros u Hg. exfalso.
    destruct (inv_entry σ I u h Hg) as (s' & Hh' & Hs & _).
    rewrite Hh in Hh'. injection Hh' as <-. unfold state_of in Hs.
    assert (Hau : is_authenticated s = true)
      by (by destruct (at_stage s), (is_authenticated s)).
    destruct (inv_auth σ I h s Hh Hau) as (_ & u' & Hu' & Ht).
    by rewrite Hu', Ht, Hau in Ea.
Qed.

Lemma inv_teardown σ h : inv σ -> inv (teardown h σ).2.
Proof.
  intros I. destruct (heap σ !! h) as [s|] eqn:Hh.
  - rewrite (teardown_eq h s σ Hh). by apply inv_teardown_state.
  - by rewrite teardown_missing.
Qed.

Lemma inv_enter_loop σ h :
  inv σ ->
  (forall s, heap σ !! h = Some s -> is_Some (secure_channel s)) ->
  inv (update_self h (fun s => at_ s Dispatch) σ).2.
Proof.
  intros I Hc. destruct (heap σ !! h) as [s|] eqn:Hh.
  - rewrite (update_self_eq _ _ _ _ Hh).
    eapply (inv_update _ _ h (at_ s Dispatch) I); simpl; try done.
    + intros _. by apply Hc.
    + intros Ha. split; [done|]. by apply (inv_auth σ I h s Hh).
    + apply (inv_unset σ I h s Hh).
    + intros u Hg. destruct (inv_entry σ I u h Hg) as (s' & Hh' & Hs & Hu).
      rewrite Hh in Hh'. injection Hh' as <-. split; [|done].
      unfold state_of in *. simpl. by destruct (at_stage s), (is_authenticated s).
  - unfold update_self, modify, set_heap. simpl. rewrite Hh. by destruct σ.
Qed.

Lemma _handle_key_exchange_cases h envelope σ s :
  heap σ !! h = Some s ->
  _handle_key_exchange h envelope σ = (inr false, σ)
  \/ exists c,
       length c = 32%nat
       /\ _handle_key_exchange h envelope σ
          = (inr true,
             write h (Encrypted handshake_complete) (keyed_state h s c σ)).
Proof.
  intros Hh. unfold _handle_key_exchange, try_except, bind, lift.
  destruct (Py.getitem envelope "payload") as [e|payload]; simpl; [by left|].
  destruct (Py.getitem payload "key") as [e|k]; simpl; [by left|].
  match goal with
  | |- context [match ?x with inl _ => _ | inr _ => _ end] =>
      destruct x as [e|encrypted_key]
  end; simpl; [by left|].
  destruct (rsa_oaep_decrypt encrypted_key) as [aes_key|]; simpl; [|by left].
  unfold SecureChannel. case_bool_decide as Hlen; simpl; [|by left].
  right. exists aes_key. split; [done|].
  match goal with
  | |- context [send_json _ _ ?st] =>
      replace st with (keyed_state h s aes_key σ)
        by (unfold keyed_state, update_self, modify, set_heap; simpl;
            by rewrite Hh)
  end.
  unfold send_json, bind, self, modify, ret, raise. simpl.
  by rewrite lookup_insert_eq.
Qed.

Lemma inv_keyed_state σ h s c :
  inv σ -> heap σ !! h = Some s -> at_stage s = AwaitKey ->
  inv (keyed_state h s c σ).
Proof.
  intros I Hh Hst.
  eapply (inv_update _ _ h (with_channel s c) I); simpl; try done.
  - apply (inv_auth σ I h s Hh).
  - apply (inv_unset σ I h s Hh).
  - intros u Hg. exfalso. eapply (inv_unauth_no_entry σ h s u); try done.
    unfold state_of. by rewrite Hst.
Qed.

Lemma snd_bind_ret {A B} (m : M A) (b : B) σ :
  (bind m (fun _ => ret b) σ).2 = (m σ).2.
Proof. unfold bind, ret. by destruct (m σ) as [[e|a] σ']. Qed.

Lemma bind_ret_true {A} (m : M A) σ a σ1 :
  m σ = (inr a, σ1) -> bind m (fun _ => ret true) σ = (inr true, σ1).
Proof. intros E. unfold bind. by rewrite E. Qed.

Lemma dispatch_cases h l salt σ s :
  heap σ !! h = Some s ->
  quiet σ (dispatch h l salt σ).2
  \/ (is_authenticated s = false
      /\ exists row σ1,
           row ∈ users σ
           /\ dispatch h l salt σ = (inr true, σ1)
           /\ quiet (login_state h s row σ) σ1).
Proof.
  intros Hh. remember (dispatch h l salt σ) as res eqn:E.
  unfold dispatch in E.
  destruct l as [| |envelope]; [left; subst; apply quiet_refl..|].
  unfold bind at 1 in E. unfold self in E. rewrite Hh in E.
  destruct (is_authenticated s) eqn:Ha; simpl in E.
  - left. subst res. rewrite snd_bind_ret. apply _process_message_quiet.
  - unfold bind at 2 in E. unfold lift in E.
    destruct (Py.get envelope "type") as [e|t]; simpl in E;
      [left; subst; apply quiet_refl|].
    destruct (Py.eq_str t "login").
    { destruct (_perform_login_cases h envelope σ s Hh)
        as [Hq|(row & σ1 & Hrow & E1 & Hq)].
      - left. subst res. by rewrite snd_bind_ret.
      - right. split; [done|]. exists row, σ1. split; [done|].
        subst res. split; [|done]. by apply (bind_ret_true _ σ tt). }
    left. subst res. rewrite snd_bind_ret. destruct (Py.eq_str t "signup").
    + apply _perform_signup_quiet.
    + apply send_json_quiet.
Qed.

Lemma inv_resume h (phase : M bool) σ :
  inv (phase σ).2 ->
  ((phase σ).1 = inr true ->
   forall s, heap (phase σ).2 !! h = Some s -> is_Some (secure_channel s)) ->
  inv (resume h phase Dispatch σ).
Proof.
  intros I Hc. unfold resume.
  destruct (phase σ) as [[e|[]] σ']; simpl in *.
  - by apply inv_teardown.
  - apply (inv_enter_loop σ' h I). by apply Hc.
  - by apply inv_teardown.
Qed.

Lemma inv_accept σ h : inv σ -> inv (accept h σ).
Proof.
  intros I. unfold accept. destruct (heap σ !! h) eqn:Hh; [done|].
  eapply (inv_update _ _ h new_session I); simpl; try done.
  intros u Hg. destruct (inv_entry σ I u h Hg) as (s & Hs & _). congruence.
Qed.

Lemma inv_handshake σ h l s :
  inv σ -> heap σ !! h = Some s -> at_stage s = AwaitKey ->
  inv (resume h (handshake h l) Dispatch σ).
Proof.
  intros I Hh Hst. apply inv_resume.
  - unfold handshake. destruct l as [| |envelope]; try done.
    unfold bind, lift. destruct (Py.get envelope "type") as [e|t]; [done|].
    simpl. destruct (negb (Py.eq_str t "key_exchange")); [done|].
    destruct (_handle_key_exchange_cases h envelope σ s Hh)
      as [->|(c & Hc & ->)]; simpl; [done|].
    eapply quiet_inv; [|by apply (inv_keyed_state σ h s c)]. by repeat split.
  - unfold handshake. destruct l as [| |envelope]; try done.
    unfold bind, lift. destruct (Py.get envelope "type") as [e|t]; [done|].
    simpl. destruct (negb (Py.eq_str t "key_exchange")); [done|].
    destruct (_handle_key_exchange_cases h envelope σ s Hh)
      as [->|(c & Hc & ->)]; simpl; [done|].
    intros _ s'. rewrite lookup_insert_eq. intros [= <-]. simpl. eauto.
Qed.

Lemma inv_dispatch σ h l salt s :
  inv σ -> heap σ !! h = Some s -> at_stage s = Dispatch ->
  inv (resume h (dispatch h l salt) Dispatch σ).
Proof.
  intros I Hh Hst.
  destruct (dispatch_cases h l salt σ s Hh)
    as [Hq|(Ha & row & σ1 & Hrow & E & Hq)].
  - apply inv_resume.
    + by eapply quiet_inv.
    + intros _ s'. destruct Hq as (-> & _). rewrite Hh. intros [= <-].
      by apply (inv_channel σ I h).
  - assert (Hs : state_of s = UNAUTH) by (unfold state_of; by rewrite Hst, Ha).
    apply inv_resume; rewrite E; simpl.
    + eapply quiet_inv; [done|]. by apply inv_login_state.
    + intros _ s'. destruct Hq as (-> & _). simpl.
      rewrite lookup_insert_eq. intros [= <-]. simpl.
      by apply (inv_channel σ I h).
Qed.

Lemma inv_step σ e : inv σ -> inv (step σ e).
Proof.
  intros I. destruct e as [h|h l salt]; simpl; [by apply inv_accept|].
  unfold recv. destruct (heap σ !! h) as [s|] eqn:Hh; [|done].
  destruct (at_stage s) eqn:Hst; [|by eapply inv_dispatch|done].
  by eapply inv_handshake.
Qed.

Lemma inv_initial : inv initial.
Proof.
  split; simpl; try done.
  - apply NoDup_nil_2.
Qed.

Lemma inv_fold es σ : inv σ -> inv (fold_left step es σ).
Proof.
  revert σ. induction es as [|e es IH]; simpl; [done|].
  intros σ I. by apply IH, inv_step.
Qed.

Theorem inv_reachable σ : reachable σ -> inv σ.
Proof. intros [es <-]. apply inv_fold, inv_initial. Qed.

End Transitions.

(** ** The registry and the authenticated sessions *)

Section Registry.

Context `{!Libraries}.

Lemma registry_handles_NoDup σ : inv σ -> NoDup (_online_users σ).*2.
Proof.
  intros I. apply NoDup_fmap_2_strong.
  - intros [u1 h1] [u2 h2] H1 H2 Heq. simpl in Heq. subst h2.
    apply (PyFacts.dict_elem_get _ _ _ (inv_keys σ I)) in H1, H2.
    destruct (inv_entry σ I u1 h1 H1) as (s1 & Hs1 & _ & Hu1).
    destruct (inv_entry σ I u2 h1 H2) as (s2 & Hs2 & _ & Hu2).
    congruence.
  - eapply NoDup_fmap_1, (inv_keys σ I).
Qed.

Lemma registry_size_le σ :
  inv σ -> length (_online_users σ) <= size (auth_sessions σ).
Proof.
  intros I. rewrite <- (length_fmap snd).
  rewrite <- length_map_to_list, <- (length_fmap fst (map_to_list _)).
  apply submseteq_length, NoDup_submseteq; [by apply registry_handles_NoDup|].
  intros h Hh. apply list_elem_of_fmap in Hh as ([u h'] & -> & Hin). simpl.
  apply (PyFacts.dict_elem_get _ _ _ (inv_keys σ I)) in Hin.
  destruct (inv_entry σ I u h' Hin) as (s & Hs & Hst & _).
  apply list_elem_of_fmap. exists (h', s). split; [done|].
  apply elem_of_map_to_list. unfold auth_sessions.
  by apply map_lookup_filter_Some.
Qed.

Lemma registered_size_le σ :
  registered σ -> size (auth_sessions σ) <= length (_online_users σ).
Proof.
  intros R. rewrite <- (length_fmap snd).
  rewrite <- length_map_to_list, <- (length_fmap fst (map_to_list _)).
  apply submseteq_length, NoDup_submseteq; [apply NoDup_fst_map_to_list|].
  intros h Hh. apply list_elem_of_fmap in Hh as ([h' s] & -> & Hin). simpl.
  apply elem_of_map_to_list in Hin. unfold auth_sessions in Hin.
  apply map_lookup_filter_Some in Hin as (Hs & Hst). simpl in Hst.
  destruct (R h' s Hs Hst) as (u & _ & Hg).
  apply list_elem_of_fmap. exists (u, h'). split; [done|].
  by apply PyFacts.dict_get_elem.
Qed.

Lemma registered_quiet σ σ' : quiet σ σ' -> registered σ -> registered σ'.
Proof. intros (Hh & Hr & _) R h s. rewrite Hh, Hr. apply R. Qed.

Lemma exclusive_heap σ σ' : heap σ' = heap σ -> exclusive σ -> exclusive σ'.
Proof. intros Hh X h1 h2 s1 s2. rewrite Hh. apply X. Qed.

Lemma registered_update σ σ' h s' :
  registered σ ->
  heap σ' = <[h := s']> (heap σ) ->
  _online_users σ' = _online_users σ ->
  (state_of s' = AUTH ->
   exists u, user_id s' = Some u
             /\ Py.dict_get (_online_users σ) u = Some h) ->
  registered σ'.
Proof.
  intros R Hh Hr H1 h' s''. rewrite Hh, Hr.
  destruct (decide (h' = h)) as [->|Hne].
  - rewrite lookup_insert_eq. by intros [= <-].
  - rewrite lookup_insert_ne by done. apply R.
Qed.

Lemma registered_login_state σ h s row :
  inv σ -> registered σ -> heap σ !! h = Some s -> state_of s = UNAUTH ->
  exclusive (login_state h s row σ) ->
  registered (login_state h s row σ).
Proof.
  intros I R Hh Hs X.
  assert (Hst : at_stage s = Dispatch).
  { unfold state_of in Hs. by destruct (at_stage s), (is_authenticated s). }
  assert (Hnew : state_of (logged_in s row) = AUTH)
    by (unfold state_of; simpl; by rewrite Hst).
  intros h' s''. simpl. destruct (decide (h' = h)) as [->|Hne].
  - rewrite lookup_insert_eq. intros [= <-] _.
    exists (Database.id row). split; [done|]. apply PyFacts.dict_get_set_eq.
  - rewrite lookup_insert_ne by done. intros Hh' Hs'.
    destruct (R h' s'' Hh' Hs') as (u & Hu & Hg).
    exists u. split; [done|]. rewrite PyFacts.dict_get_set_ne; [done|].
    intros <-. apply Hne.
    apply (X h' h s'' (logged_in s row)); simpl; try done.
    + by rewrite lookup_insert_ne.
    + by rewrite lookup_insert_eq.
Qed.

Lemma registered_teardown_state σ h s :
  inv σ -> registered σ -> exclusive σ ->
  heap σ !! h = Some s -> at_stage s <> Closed ->
  registered (teardown_state h s σ).
Proof.
  intros I R X Hh Hst. unfold teardown_state.
  destruct (is_authenticated s && _) eqn:Ea.
  - apply andb_true_iff in Ea as [Ea Eu].
    destruct (user_id s) as [u|] eqn:Eu'; [|done].
    assert (Hs : state_of s = AUTH).
    { destruct (inv_auth σ I h s Hh Ea) as (Hk & _).
      unfold state_of. rewrite Ea. by destruct (at_stage s). }
    intros h' s''. simpl. destruct (decide (h' = h)) as [->|Hne].
    + rewrite lookup_insert_eq. by intros [= <-].
    + rewrite lookup_insert_ne by done. intros Hh' Hs'.
      destruct (R h' s'' Hh' Hs') as (u' & Hu' & Hg).
      exists u'. split; [done|].
      assert (u <> u').
      { intros <-. apply Hne. apply (X h' h s'' s); congruence. }
      destruct (Py.dict_get (_online_users σ) u); [|done].
      by rewrite PyFacts.dict_get_del_ne.
  - by eapply (registered_update σ _ h (at_ s Closed) R).
Qed.

Lemma registered_enter_loop σ h :
  inv σ -> registered σ ->
  (forall s, heap σ !! h = Some s -> at_stage s <> Closed) ->
  registered (update_self h (fun s => at_ s Dispatch) σ).2.
Proof.
  intros I R Hc. destruct (heap σ !! h) as [s|] eqn:Hh.
  - rewrite (update_self_eq _ _ _ _ Hh).
    eapply (registered_update σ _ h (at_ s Dispatch) R); simpl; try done.
    intros Hs. apply (R h s Hh).
    assert (Ha : is_authenticated s = true).
    { unfold state_of in Hs. simpl in Hs. by destruct (is_authenticated s). }
    destruct (inv_auth σ I h s Hh Ha) as (Hk & _).
    specialize (Hc s eq_refl).
    unfold state_of. rewrite Ha. by destruct (at_stage s).
  - unfold update_self, modify, set_heap. simpl. rewrite Hh. by destruct σ.
Qed.

Lemma handshake_cases h l σ s :
  heap σ !! h = Some s ->
  (exists r, r <> inr true /\ handshake h l σ = (r, σ))
  \/ exists c,
       handshake h l σ
       = (inr true,
          write h (Encrypted handshake_complete) (keyed_state h s c σ)).
Proof.
  intros Hh. unfold handshake.
  destruct l as [| |envelope];
    [left; by eexists; split; [|reflexivity]..|].
  unfold bind, lift. destruct (Py.get envelope "type") as [e|t]; simpl.
  { left. by eexists; split; [|reflexivity]. }
  destruct (negb (Py.eq_str t "key_exchange")).
  { left. by eexists; split; [|reflexivity]. }
  destruct (_handle_key_exchange_cases h envelope σ s Hh)
    as [->|(c & Hc & ->)].
  - left. by eexists; split; [|reflexivity].
  - right. by exists c.
Qed.

Lemma registered_step σ e :
  inv σ -> registered σ -> exclusive σ -> exclusive (step σ e) ->
  registered (step σ e).
Proof.
  intros I R X X'. destruct e as [h|h l salt]; simpl in *.
  { unfold accept. destruct (heap σ !! h) eqn:Hh; [done|].
    by eapply (registered_update σ _ h new_session R). }
  unfold recv in *. destruct (heap σ !! h) as [s|] eqn:Hh; [|done].
  destruct (at_stage s) eqn:Hst; [| |done].
  - unfold resume.
    destruct (handshake_cases h l σ s Hh) as [(r & Hr & ->)|(c & ->)].
    + replace (match r with inr true => _ | _ => (teardown h σ).2 end)
        with (teardown h σ).2 by (by destruct r as [?|[]]).
      rewrite (teardown_eq h s σ Hh).
      apply registered_teardown_state; try done. by rewrite Hst.
    + rewrite (update_self_eq _ _ _ (with_channel s c))
        by (simpl; by rewrite lookup_insert_eq).
      eapply (registered_update σ _ h (at_ (with_channel s c) Dispatch) R);
        simpl; [by rewrite insert_insert_eq|done|].
      intros Hs. exfalso.
      assert (Ha : is_authenticated s = true).
      { unfold state_of in Hs. simpl in Hs. by destruct (is_authenticated s). }
      by destruct (inv_auth σ I h s Hh Ha).
  - destruct (dispatch_cases h l salt σ s Hh)
      as [Hq|(Ha & row & σ1 & Hrow & E & Hq)].
    + unfold resume. destruct (dispatch h l salt σ) as [r σ'] eqn:E.
      simpl in Hq. pose proof Hq as (Hheap & _).
      assert (Hh' : heap σ' !! h = Some s) by (by rewrite Hheap).
      assert (R' : registered σ') by (by eapply registered_quiet).
      assert (I' : inv σ') by (by eapply quiet_inv).
      destruct r as [e|[]].
      * rewrite (teardown_eq h s σ' Hh').
        apply registered_teardown_state; try done.
        -- by apply (exclusive_heap σ).
        -- by rewrite Hst.
      * apply registered_enter_loop; try done.
        intros s'. rewrite Hh'. intros [= <-]. by rewrite Hst.
      * rewrite (teardown_eq h s σ' Hh').
        apply registered_teardown_state; try done.
        -- by apply (exclusive_heap σ).
        -- by rewrite Hst.
    + assert (Hs : state_of s = UNAUTH) by (unfold state_of; by rewrite Hst, Ha).
      unfold resume in *. rewrite E in *.
      pose proof Hq as (Hheap & _).
      assert (Hh' : heap σ1 !! h = Some (logged_in s row)).
      { rewrite Hheap. simpl. by rewrite lookup_insert_eq. }
      rewrite (update_self_eq _ _ _ _ Hh') in *. simpl in X'.
      assert (Hsame : <[h := at_ (logged_in s row) Dispatch]> (heap σ1)
                      = heap σ1).
      { apply insert_id. rewrite Hh'. f_equal. unfold at_, logged_in.
        simpl. by rewrite Hst. }
      assert (I1 : inv (login_state h s row σ)) by (by apply inv_login_state).
      assert (R1 : registered σ1).
      { eapply registered_quiet; [done|].
        apply registered_login_state; try done.
        intros h1 h2 s1 s2. rewrite <- Hheap, <- Hsame. apply X'. }
      eapply (registered_update σ1 _ h (at_ (logged_in s row) Dispatch) R1);
        simpl; [done|done|].
      intros _. apply (R1 h (logged_in s row) Hh').
      unfold state_of. simpl. by rewrite Hst.
Qed.

Lemma registered_run es :
  (forall k, exclusive (run (take k es))) -> registered (run es).
Proof.
  induction es as [|e es IH] using rev_ind; intros X.
  - intros h s Hh. unfold run in Hh. simpl in Hh.
    by rewrite lookup_empty in Hh.
  - unfold run in *. rewrite fold_left_app. simpl.
    assert (X0 : forall k, exclusive (fold_left step (take k es) initial)).
    { intros k. destruct (decide (k <= length es)) as [Hk|Hk].
      - specialize (X k). by rewrite take_app_le in X.
      - specialize (X (length es)). rewrite take_app_length in X.
        by rewrite take_ge by lia. }
    apply registered_step.
    + apply inv_fold, inv_initial.
    + by apply IH.
    + specialize (X0 (length es)). by rewrite firstn_all in X0.
    + specialize (X (S (length es))).
      rewrite take_ge in X by (rewrite length_app; simpl; lia).
      by rewrite fold_left_app in X.
Qed.

Lemma exclusiveb_sound σ : exclusiveb σ = true -> exclusive σ.
Proof.
  unfold exclusiveb. intros Hb h1 h2 s1 s2 H1 H2 Hs1 Hs2 Hu.
  rewrite forallb_forall in Hb.
  apply elem_of_map_to_list, list_elem_of_In in H1, H2.
  specialize (Hb _ H1). rewrite forallb_forall in Hb.
  specialize (Hb _ H2). simpl in Hb.
  rewrite !bool_decide_eq_true_2 in Hb by done. simpl in Hb.
  by apply bool_decide_eq_true_1 in Hb.
Qed.

Lemma exclusive_prefixes es :
  forallb (fun k => exclusiveb (run (take k es))) (seq 0 (S (length es)))
  = true ->
  forall k, exclusive (run (take k es)).
Proof.
  intros Hb k. rewrite forallb_forall in Hb.
  destruct (decide (k <= length es)) as [Hk|Hk].
  - apply exclusiveb_sound, Hb, in_seq. lia.
  - rewrite take_ge by lia. rewrite <- (firstn_all es).
    apply exclusiveb_sound, Hb, in_seq. lia.
Qed.

(** C4, as the code has it. In every state the server reaches, the
    registry has at most as many entries as there are sessions in state
    AUTH, it has at most one entry per user id, and every entry maps a
    user id to a session in state AUTH that is authenticated under that
    id. The two numbers are equal in every run in which no two sessions
    are ever in state AUTH under the same user id. *)
Theorem registry_entries_authenticated (es : list event) :
  let σ := run es in
  length (_online_users σ) <= size (auth_sessions σ)
  /\ NoDup (_online_users σ).*1
  /\ (forall u h,
        (u, h) ∈ _online_users σ ->
        exists s, heap σ !! h = Some s
                  /\ state_of s = AUTH
                  /\ is_authenticated s = true
                  /\ user_id s = Some u)
  /\ ((forall k, exclusive (run (take k es))) ->
      length (_online_users σ) = size (auth_sessions σ)).
Proof.
  intros σ. assert (I : inv σ) by (apply inv_reachable; by exists es).
  split; [by apply registry_size_le|]. split; [apply I|]. split.
  - intros u h Hin.
    apply (PyFacts.dict_elem_get _ _ _ (inv_keys σ I)) in Hin.
    destruct (inv_entry σ I u h Hin) as (s & Hs & Hst & Hu).
    exists s. repeat split; try done.
    unfold state_of in Hst. by destruct (at_stage s), (is_authenticated s).
  - intros X. apply Nat.le_antisymm; [by apply registry_size_le|].
    by apply registered_size_le, registered_run.
Qed.

End Registry.

(** ** The session protocol, one line at a time *)

Section Protocol.

Context `{!Libraries}.

Lemma at_same_stage s : at_ s (at_stage s) = s.
Proof. by destruct s. Qed.

Lemma reachable_session σ h s :
  reachable σ -> heap σ !! h = Some s -> state_of s <> HANDSHAKE ->
  state_of s <> CLOSED ->
  at_stage s = Dispatch /\ exists key, secure_channel s = Some key.
Proof.
  intros Hr Hh H1 H2. pose proof (inv_reachable σ Hr) as I.
  assert (Hst : at_stage s = Dispatch)
    by (unfold state_of in *; by destruct (at_stage s)).
  split; [done|]. by destruct (inv_channel σ I h s Hh Hst) as [key ->]; eauto.
Qed.

Lemma send_json_open h data σ s key :
  heap σ !! h = Some s -> secure_channel s = Some key ->
  send_json h data σ = (inr tt, write h (Encrypted data) σ).
Proof.
  intros Hh Hk. unfold send_json, bind, self. by rewrite Hh, Hk.
Qed.

(** A turn of the loop that ends normally leaves the session reading its
    next line. *)
Lemma recv_continue h l salt σ s σ' s' :
  heap σ !! h = Some s -> at_stage s = Dispatch ->
  dispatch h l salt σ = (inr true, σ') ->
  heap σ' !! h = Some s' -> at_stage s' = Dispatch ->
  recv h l salt σ = σ'.
Proof.
  intros Hh Hst Hd Hh' Hst'. unfold recv, resume. rewrite Hh, Hst, Hd.
  rewrite (update_self_eq _ _ _ _ Hh'). simpl.
  destruct σ' as [r u m hp w]. unfold set_heap. simpl in *. f_equal.
  rewrite <- Hst'. change (mk_session _ _ _ _ _ (at_stage s'))
    with (at_ s' (at_stage s')).
  rewrite at_same_stage. by apply insert_id.
Qed.

(** A turn of the loop that breaks or raises runs the [finally] block. *)
Lemma recv_stop h l salt σ s r σ' :
  heap σ !! h = Some s -> at_stage s = Dispatch ->
  dispatch h l salt σ = (r, σ') -> r <> inr true ->
  recv h l salt σ = (teardown h σ').2.
Proof.
  intros Hh Hst Hd Hr. unfold recv, resume. rewrite Hh, Hst, Hd.
  by destruct r as [e|[]].
Qed.

(** C7. A session in state UNAUTH that reads an inner envelope whose type
    is neither [login] nor [signup] is sent the "Not authenticated"
    response and nothing else changes: the session stays in UNAUTH, open
    and unregistered. *)
Theorem unauth_rejects_other_types
    (σ : Server) (h : nat) (s : ClientSession) (o : list (string * json))
    (salt : string) :
  reachable σ ->
  heap σ !! h = Some s ->
  state_of s = UNAUTH ->
  Py.eq_str (default JNull (Py.dict_get o "type")) "login" = false ->
  Py.eq_str (default JNull (Py.dict_get o "type")) "signup" = false ->
  let σ' := recv h (Envelope (JObj o)) salt σ in
  σ' = write h (Encrypted not_authenticated) σ
  /\ not_authenticated
     = JObj [("type", JStr "response");
             ("payload",
              JObj [("status", JStr "error");
                    ("message",
                     JStr "Not authenticated. Send 'login' or 'signup'.")])]
  /\ heap σ' !! h = Some s
  /\ _online_users σ' = _online_users σ
  /\ forall u, Py.dict_get (_online_users σ') u <> Some h.
Proof.
  intros Hr Hh Hs Hl Hsu σ'.
  destruct (reachable_session σ h s Hr Hh) as (Hst & key & Hk);
    [by rewrite Hs..|].
  assert (Ha : is_authenticated s = false).
  { unfold state_of in Hs. rewrite Hst in Hs. by destruct (is_authenticated s). }
  assert (E : σ' = write h (Encrypted not_authenticated) σ).
  { unfold σ'. eapply recv_continue; [done..| |done|done].
    unfold dispatch, bind, self, lift. rewrite Hh, Ha. simpl.
    rewrite Hl, Hsu.
    by rewrite (send_json_open h _ σ s key). }
  rewrite E. repeat split; try done.
  intros u Hu. simpl in Hu.
  eapply (inv_unauth_no_entry σ h s u (inv_reachable σ Hr)); try done.
  by rewrite Hs.
Qed.

Lemma auth_session σ h s :
  reachable σ -> heap σ !! h = Some s -> state_of s = AUTH ->
  at_stage s = Dispatch
  /\ is_authenticated s = true
  /\ (exists key, secure_channel s = Some key)
  /\ exists u, user_id s = Some u /\ Py.truthy u = true.
Proof.
  intros Hr Hh Hs.
  destruct (reachable_session σ h s Hr Hh) as (Hst & Hk); [by rewrite Hs..|].
  assert (Ha : is_authenticated s = true).
  { unfold state_of in Hs. rewrite Hst in Hs. by destruct (is_authenticated s). }
  repeat split; try done.
  by apply (inv_auth σ (inv_reachable σ Hr) h s Hh).
Qed.

(** What an authenticated session does with an envelope. *)
Lemma dispatch_auth h envelope salt σ s :
  heap σ !! h = Some s -> is_authenticated s = true ->
  dispatch h (Envelope envelope) salt σ
  = bind (_process_message h envelope) (fun _ => ret true) σ.
Proof.
  intros Hh Ha. unfold dispatch. unfold bind at 1. unfold self.
  by rewrite Hh, Ha.
Qed.

Lemma route_online hs o p r text σ s hr :
  reachable σ -> heap σ !! hs = Some s -> state_of s = AUTH ->
  Py.dict_get o "payload" = Some (JObj p) ->
  Py.dict_get p "recipient_id" = Some (JStr r) ->
  Py.dict_get p "text" = Some text ->
  Py.dict_get (_online_users σ) r = Some hr ->
  route_chat_message hs (JObj o) σ
  = (inr tt,
     write hr
       (Encrypted (new_message (Py.of_opt (user_id s))
                               (Py.of_opt (full_name s)) text)) σ).
Proof.
  intros Hr Hh Hs Hp Hrid Ht Hreg.
  destruct (inv_entry σ (inv_reachable σ Hr) r hr Hreg)
    as (sr & Hhr & Hsr & _).
  destruct (auth_session σ hr sr Hr Hhr Hsr) as (Hst & _ & (key & Hk) & _).
  unfold route_chat_message, try_except, bind, lift, self, Py.getitem,
    UserRegistry.get_session_by_id, gets.
  rewrite Hp, Hrid, Ht, Hh, Hreg.
  by rewrite (send_json_open hr _ σ sr key).
Qed.


Lemma recv_chat h o salt σ s σ' :
  reachable σ -> heap σ !! h = Some s -> state_of s = AUTH ->
  Py.dict_get o "type" = Some (JStr "chat") ->
  route_chat_message h (JObj o) σ = (inr tt, σ') ->
  heap σ' = heap σ ->
  recv h (Envelope (JObj o)) salt σ = σ'.
Proof.
  intros Hr Hh Hs Ht Hroute Hheap.
  destruct (auth_session σ h s Hr Hh Hs) as (Hst & Ha & _).
  eapply (recv_continue h _ salt σ s σ' s); [done..| |by rewrite Hheap|done].
  rewrite (dispatch_auth h _ salt σ s Hh Ha).
  unfold _process_message, bind, lift, Py.get. rewrite Ht. simpl.
  by rewrite Hroute.
Qed.

(** C1. When an authenticated session sends a chat to a recipient that is
    online, what happens is that one [new_message] envelope goes to the
    recipient's session, and its [sender_id] and [sender_name] are the
    user id and the full name of the sending session; the payload [p] of
    the chat envelope is arbitrary apart from its [recipient_id] and
    [text], so whatever else it carries, a sender id included, is
    ignored. *)
Theorem delivered_sender_is_session
    (σ : Server) (hs hr : nat) (s : ClientSession)
    (o p : list (string * json)) (r : string) (text : json)
    (salt : string) :
  reachable σ ->
  heap σ !! hs = Some s ->
  state_of s = AUTH ->
  Py.dict_get o "type" = Some (JStr "chat") ->
  Py.dict_get o "payload" = Some (JObj p) ->
  Py.dict_get p "recipient_id" = Some (JStr r) ->
  Py.dict_get p "text" = Some text ->
  Py.dict_get (_online_users σ) r = Some hr ->
  exists u,
    user_id s = Some u
    /\ is_authenticated s = true
    /\ recv hs (Envelope (JObj o)) salt σ
       = write hr
           (Encrypted (new_message (JStr u) (Py.of_opt (full_name s)) text))
           σ.
Proof.
  intros Hr Hh Hs Ht Hp Hrid Htext Hreg.
  destruct (auth_session σ hs s Hr Hh Hs) as (_ & Ha & _ & u & Hu & _).
  exists u. split; [done|]. split; [done|].
  eapply recv_chat; [done..| |done].
  rewrite (route_online hs o p r text σ s hr) by done. by rewrite Hu.
Qed.


(** End of file in the loop: the [finally] block and nothing else. *)
Lemma recv_eof h salt σ s :
  heap σ !! h = Some s -> at_stage s = Dispatch ->
  recv h EOF salt σ = teardown_state h s σ.
Proof.
  intros Hh Hst.
  rewrite (recv_stop h EOF salt σ s (inr false) σ); try done.
  by rewrite (teardown_eq h s σ Hh).
Qed.

(** C3, as the code has it. The server has no [logout] command: an
    authenticated session that reads an inner envelope of type [logout]
    answers "Unknown command type: logout", stays in state AUTH with its
    registry entry, and goes on reading. It is the end of file that
    follows (the client closes the connection after sending [logout])
    that closes the session: no frame is written, the session ends in
    state CLOSED and its user id leaves the registry. *)
Theorem logout_is_an_unknown_command
    (σ : Server) (h : nat) (s : ClientSession) (o : list (string * json))
    (salt : string) :
  reachable σ ->
  heap σ !! h = Some s ->
  state_of s = AUTH ->
  Py.dict_get o "type" = Some (JStr "logout") ->
  let σ' := recv h (Envelope (JObj o)) salt σ in
  let σ'' := recv h EOF salt σ' in
  σ' = write h (Encrypted (unknown_command "logout")) σ
  /\ heap σ' !! h = Some s
  /\ _online_users σ' = _online_users σ
  /\ wire σ'' = wire σ'
  /\ (exists s', heap σ'' !! h = Some s' /\ state_of s' = CLOSED)
  /\ exists u, user_id s = Some u
                /\ Py.dict_get (_online_users σ'') u = None.
Proof.
  intros Hr Hh Hs Ht σ' σ''.
  destruct (auth_session σ h s Hr Hh Hs) as (Hst & Ha & (key & Hk) & u & Hu & Htr).
  assert (E : σ' = write h (Encrypted (unknown_command "logout")) σ).
  { unfold σ'. eapply (recv_continue h _ salt σ s _ s); [done..| |done|done].
    rewrite (dispatch_auth h _ salt σ s Hh Ha).
    unfold _process_message, bind, lift, Py.get. rewrite Ht. simpl.
    by rewrite (send_json_open h _ σ s key). }
  assert (E' : σ'' = teardown_state h s σ').
  { unfold σ''. apply recv_eof; [|done]. by rewrite E. }
  clearbody σ' σ''. subst σ'' σ'.
  unfold teardown_state. rewrite Ha, Hu, Htr. simpl.
  repeat split; try done.
  - exists (at_ s Closed). by rewrite lookup_insert_eq.
  - exists u. split; [done|].
    destruct (Py.dict_get (_online_users σ) u) eqn:Hg; [|done].
    apply PyFacts.dict_get_del_eq, (inv_reachable σ Hr).
Qed.


Lemma recv_unauth h o salt σ s σ' (handler : M unit) :
  reachable σ -> heap σ !! h = Some s -> state_of s = UNAUTH ->
  (forall msg_type,
     Py.dict_get o "type" = Some msg_type ->
     (if Py.eq_str msg_type "login" then _perform_login h (JObj o)
      else if Py.eq_str msg_type "signup" then
        _perform_signup h (JObj o) salt
      else send_json h not_authenticated) = handler) ->
  is_Some (Py.dict_get o "type") ->
  handler σ = (inr tt, σ') ->
  heap σ' = heap σ ->
  recv h (Envelope (JObj o)) salt σ = σ'.
Proof.
  intros Hr Hh Hs Hhd [t Ht] Hrun Hheap.
  destruct (reachable_session σ h s Hr Hh) as (Hst & key & Hk);
    [by rewrite Hs..|].
  assert (Ha : is_authenticated s = false).
  { unfold state_of in Hs. rewrite Hst in Hs. by destruct (is_authenticated s). }
  eapply (recv_continue h _ salt σ s σ' s); [done..| |by rewrite Hheap|done].
  unfold dispatch. unfold bind at 1. unfold self. rewrite Hh, Ha. simpl.
  unfold bind at 1. unfold bind at 1. unfold lift, Py.get. rewrite Ht. simpl.
  specialize (Hhd t Ht). unfold not_authenticated in Hhd. rewrite Hhd.
  by rewrite Hrun.
Qed.

Lemma set_users_same σ : set_users (users σ) σ = σ.
Proof. by destruct σ. Qed.

Lemma generated_id_truthy em :
  Py.truthy (Database._generate_user_id em) = true.
Proof. apply uuid_str_truthy. Qed.

Lemma add_user_str table name em pw :
  Database.add_user table (JStr name) em pw
  = inr (if Database.conflicts table (Database._generate_user_id em) em
         then (table, None)
         else ((table
                ++ [Database.mk_user (Database._generate_user_id em)
                      (Some name) em pw])%list,
               Some (Database._generate_user_id em))).
Proof. unfold Database.add_user. simpl. by destruct (Database.conflicts _ _ _). Qed.

Lemma _perform_signup_run h o name em pw salt σ s key :
  heap σ !! h = Some s -> secure_channel s = Some key ->
  is_signup o name em pw ->
  _perform_signup h (JObj o) salt σ
  = (inr tt,
     if Database.conflicts (users σ)
          (Database._generate_user_id (normalize em)) (normalize em)
     then write h (Encrypted signup_failed) σ
     else write h (Encrypted signup_ok)
            (set_users (users σ ++ [new_user name em pw salt])%list σ)).
Proof.
  intros Hh Hk (Ht & p & Hp & Hn & He & Hpw).
  unfold _perform_signup, try_except, bind, lift, gets, modify, Py.get,
    Py.getitem.
  rewrite Ht. simpl. rewrite Hp, Hn, He, Hpw. simpl.
  rewrite add_user_str. fold (normalize em).
  destruct (Database.conflicts _ _ _); cbn [fst snd].
  - rewrite set_users_same. by rewrite (send_json_open h _ σ s key).
  - rewrite generated_id_truthy. by rewrite (send_json_open h _ _ s key).
Qed.


(** Sign-up never authenticates, whatever the envelope carries: after any
    envelope of type [signup] the session is not authenticated, has no
    user id and no registry entry. (It is closed when its payload makes
    the handler raise, as a non-string e-mail address does.) *)
Lemma signup_never_authenticates σ h s envelope salt :
  reachable σ -> heap σ !! h = Some s -> state_of s = UNAUTH ->
  Py.get envelope "type" = inr (JStr "signup") ->
  let σ' := recv h (Envelope envelope) salt σ in
  (heap σ' !! h = Some s \/ heap σ' !! h = Some (at_ s Closed))
  /\ is_authenticated s = false
  /\ user_id s = None
  /\ _online_users σ' = _online_users σ.
Proof.
  intros Hr Hh Hs Ht σ'.
  destruct (reachable_session σ h s Hr Hh) as (Hst & key & Hk);
    [by rewrite Hs..|].
  assert (Ha : is_authenticated s = false).
  { unfold state_of in Hs. rewrite Hst in Hs. by destruct (is_authenticated s). }
  destruct (inv_unset σ (inv_reachable σ Hr) h s Hh Ha) as (Hu & _).
  assert (E : dispatch h (Envelope envelope) salt σ
              = bind (_perform_signup h envelope salt) (fun _ => ret true) σ).
  { unfold dispatch. unfold bind at 1. unfold self. rewrite Hh, Ha. simpl.
    unfold bind at 2. unfold lift. by rewrite Ht. }
  pose proof (_perform_signup_quiet h envelope salt σ) as (Hq1 & Hq2 & _).
  destruct (_perform_signup h envelope salt σ) as [[e|[]] σ1] eqn:E1;
    simpl in Hq1, Hq2.
  - assert (Hh1 : heap σ1 !! h = Some s) by (by rewrite Hq1).
    assert (Eσ : σ' = teardown_state h s σ1).
    { unfold σ'. rewrite (recv_stop h _ salt σ s (inl e) σ1); try done.
      - by rewrite (teardown_eq h s σ1 Hh1).
      - rewrite E. unfold bind. by rewrite E1. }
    rewrite Eσ. unfold teardown_state. rewrite Ha. simpl.
    rewrite lookup_insert_eq. auto.
  - assert (Eσ : σ' = σ1).
    { unfold σ'. eapply (recv_continue h _ salt σ s σ1 s);
        [done..| |by rewrite Hq1|done].
      rewrite E. unfold bind. by rewrite E1. }
    rewrite Eσ, Hq1. auto.
Qed.


(** C9. When the key that comes out of the RSA-OAEP decryption of a
    [key_exchange] is not 32 bytes long, the channel cannot be built, the
    handshake fails and the session is closed: no frame is written, and
    the session, still without channel of its own making, ends in state
    CLOSED. *)
Theorem bad_key_length_closes
    (σ : Server) (h : nat) (s : ClientSession) (o p : list (string * json))
    (k : string) (c key : list byte) (salt : string) :
  reachable σ ->
  heap σ !! h = Some s ->
  state_of s = HANDSHAKE ->
  Py.dict_get o "type" = Some (JStr "key_exchange") ->
  Py.dict_get o "payload" = Some (JObj p) ->
  Py.dict_get p "key" = Some (JStr k) ->
  b64decode k = Some c ->
  rsa_oaep_decrypt c = Some key ->
  length key <> 32 ->
  let σ' := recv h (Envelope (JObj o)) salt σ in
  SecureChannel key = inl ValueError
  /\ wire σ' = wire σ
  /\ heap σ' = <[h := at_ s Closed]> (heap σ)
  /\ state_of (at_ s Closed) = CLOSED
  /\ secure_channel (at_ s Closed) = secure_channel s
  /\ _online_users σ' = _online_users σ.
Proof.
  intros Hr Hh Hs Ht Hp Hk Hb Hrsa Hlen σ'.
  assert (Hst : at_stage s = AwaitKey).
  { unfold state_of in Hs. by destruct (at_stage s), (is_authenticated s). }
  assert (Ha : is_authenticated s = false).
  { destruct (is_authenticated s) eqn:Ha; [|done].
    by destruct (inv_auth σ (inv_reachable σ Hr) h s Hh Ha). }
  assert (Hsc : SecureChannel key = inl ValueError).
  { unfold SecureChannel. by rewrite bool_decide_eq_false_2. }
  assert (E : σ' = teardown_state h s σ).
  { unfold σ', recv, resume. rewrite Hh, Hst.
    unfold handshake, _handle_key_exchange, try_except. unfold bind at 1.
    unfold lift, Py.get. rewrite Ht. simpl.
    unfold bind at 1 2 3 4 5. unfold lift, Py.getitem.
    rewrite Hp, Hk, Hb, Hrsa, Hsc. simpl.
    by rewrite (teardown_eq h s σ Hh). }
  rewrite E. unfold teardown_state. rewrite Ha. simpl.
  by split_and!.
Qed.

Lemma reachable_step σ e : reachable σ -> reachable (step σ e).
Proof.
  intros [es <-]. exists (es ++ [e])%list. unfold run.
  by rewrite fold_left_app.
Qed.

Lemma authenticate_good σ em pw row :
  Database.get_user_by_email (users σ) (normalize em) = Some row ->
  bcrypt_checkpw pw (Database.password row) = true ->
  authenticate (normalize em) (JStr pw) σ = (inr (Some row), σ).
Proof.
  intros Hrow Hpw. unfold authenticate, bind, gets, lift, ret.
  fold (normalize (normalize em)). rewrite normalize_idem, Hrow.
  simpl. by rewrite Hpw.
Qed.

Lemma recv_login_ok h o em pw row salt σ s :
  reachable σ -> heap σ !! h = Some s -> state_of s = UNAUTH ->
  is_login o em pw ->
  Database.get_user_by_email (users σ) (normalize em) = Some row ->
  bcrypt_checkpw pw (Database.password row) = true ->
  recv h (Envelope (JObj o)) salt σ
  = write h (Encrypted (login_ok row)) (login_state h s row σ).
Proof.
  intros Hr Hh Hs Hli Hrow Hpw.
  destruct (reachable_session σ h s Hr Hh) as (Hst & key & Hk);
    [by rewrite Hs..|].
  assert (Ha : is_authenticated s = false).
  { unfold state_of in Hs. rewrite Hst in Hs. by destruct (is_authenticated s). }
  destruct Hli as (Ht & p & Hp & He & Hpass).
  eapply (recv_continue h _ salt σ s _ (logged_in s row)); [done..| | |done].
  - unfold dispatch. unfold bind at 1. unfold self. rewrite Hh, Ha. simpl.
    unfold bind at 1. unfold bind at 1. unfold lift, Py.get. rewrite Ht.
    simpl. unfold _perform_login, try_except. unfold bind at 1 2 3 4 5.
    unfold lift, Py.getitem. rewrite Hp, He, Hpass. simpl.
    fold (normalize em). rewrite (authenticate_good σ em pw row Hrow Hpw).
    unfold bind at 1 2. rewrite (update_self_eq _ _ _ _ Hh).
    unfold UserRegistry.register_user, modify.
    fold (logged_in s row). cbn [fst snd].
    change (set_online _ (set_heap _ σ)) with (login_state h s row σ).
    fold (login_ok row).
    rewrite (send_json_open h _ _ (logged_in s row) key); [done| |done].
    simpl. by rewrite lookup_insert_eq.
  - simpl. by rewrite lookup_insert_eq.
Qed.



End Protocol.

(** ** The users table *)

Section DatabaseFacts.

Lemma conflicts_false t uid em :
  Database.conflicts t uid em = false <->
  (em ∉ Database.email <$> t) /\ (uid ∉ Database.id <$> t).
Proof.
  unfold Database.conflicts. induction t as [|r t IH]; simpl.
  - split; [intros _; split; apply not_elem_of_nil|done].
  - rewrite orb_false_iff, IH, orb_false_iff, !bool_decide_eq_false,
      !not_elem_of_cons.
    intuition congruence.
Qed.

Lemma get_user_by_email_None t em :
  Database.get_user_by_email t em = None <-> (em ∉ Database.email <$> t).
Proof.
  unfold Database.get_user_by_email. induction t as [|r t IH]; simpl.
  - split; [intros _; apply not_elem_of_nil|done].
  - rewrite not_elem_of_cons, <- IH.
    case_bool_decide; split; [done|intros []; congruence|done|tauto].
Qed.

Lemma get_user_by_id_None t uid :
  Database.get_user_by_id t uid = None <-> (uid ∉ Database.id <$> t).
Proof.
  unfold Database.get_user_by_id. induction t as [|r t IH]; simpl.
  - split; [intros _; apply not_elem_of_nil|done].
  - rewrite not_elem_of_cons, <- IH.
    case_bool_decide; split; [done|intros []; congruence|done|tauto].
Qed.

Lemma get_user_by_email_app t row em :
  Database.get_user_by_email (t ++ [row]) em
  = match Database.get_user_by_email t em with
    | Some r => Some r
    | None => if bool_decide (Database.email row = em) then Some row else None
    end.
Proof.
  unfold Database.get_user_by_email. induction t as [|r t IH]; simpl; [done|].
  destruct (bool_decide (Database.email r = em)); [reflexivity|apply IH].
Qed.

Lemma get_user_by_id_app t row uid :
  Database.get_user_by_id (t ++ [row]) uid
  = match Database.get_user_by_id t uid with
    | Some r => Some r
    | None => if bool_decide (Database.id row = uid) then Some row else None
    end.
Proof.
  unfold Database.get_user_by_id. induction t as [|r t IH]; simpl; [done|].
  destruct (bool_decide (Database.id r = uid)); [reflexivity|apply IH].
Qed.

Lemma table_ok_app t row :
  table_ok t ->
  (Database.email row ∉ Database.email <$> t) ->
  (Database.id row ∉ Database.id <$> t) ->
  table_ok (t ++ [row]).
Proof.
  intros [He Hi] Hem Hid. unfold table_ok. rewrite !fmap_app. simpl.
  split; apply NoDup_app; (split; [done|]); (split; [|apply NoDup_singleton]);
    intros x Hx ->%list_elem_of_singleton; done.
Qed.

(** X1. [add_user] that returns an id has appended one row with that id,
    the address, the password and the bound name; the id is the one
    generated from the address; the table still meets its constraints;
    [get_user_by_email] and [get_user_by_id] both find the new row, and
    the lookups of every other address and id answer as before. *)
Theorem add_user_then_lookup
    (t t' : list Database.user_row) (name : json) (em pw uid : string) :
  table_ok t ->
  Database.add_user t name em pw = inr (t', Some uid) ->
  uid = Database._generate_user_id em
  /\ table_ok t'
  /\ (exists row,
        t' = (t ++ [row])%list
        /\ Database.id row = uid /\ Database.email row = em
        /\ Database.password row = pw
        /\ Database.bind_text name = inr (Database.full_name row)
        /\ Database.get_user_by_email t' em = Some row
        /\ Database.get_user_by_id t' uid = Some row)
  /\ (forall em', em' <> em ->
        Database.get_user_by_email t' em' = Database.get_user_by_email t em')
  /\ (forall uid', uid' <> uid ->
        Database.get_user_by_id t' uid' = Database.get_user_by_id t uid').
Proof.
  intros Hok E. unfold Database.add_user in E.
  remember (Database._generate_user_id em) as g eqn:Hg.
  destruct (Database.bind_text name) as [e|fn] eqn:Hn; [done|].
  destruct (Database.conflicts _ _ _) eqn:Hc; simplify_eq.
  apply conflicts_false in Hc as [Hem Hid].
  split_and!; [done|by apply table_ok_app|..].
  - eexists. split_and!; try done.
    + rewrite get_user_by_email_app.
      apply get_user_by_email_None in Hem as ->.
      cbn [Database.email]. by rewrite bool_decide_eq_true_2.
    + rewrite get_user_by_id_app.
      apply get_user_by_id_None in Hid as ->.
      cbn [Database.id]. by rewrite bool_decide_eq_true_2.
  - intros em' Hne. rewrite get_user_by_email_app.
    destruct (Database.get_user_by_email t em'); [done|].
    cbn [Database.email]. by rewrite bool_decide_eq_false_2.
  - intros uid' Hne. rewrite get_user_by_id_app.
    destruct (Database.get_user_by_id t uid'); [done|].
    cbn [Database.id]. by rewrite bool_decide_eq_false_2.
Qed.


Lemma normalize_twice em : normalize (normalize em) = normalize em.
Proof.
  unfold normalize.
  by rewrite PyStrFacts.strip_lower, PyStrFacts.strip_idem,
    PyStrFacts.lower_idem.
Qed.

(** X2. [add_user] under an address that is in the table, or whose
    generated id is, returns [None] and leaves the table as it is (or
    raises, when the name cannot be bound). *)
Theorem add_user_taken
    (t : list Database.user_row) (name : json) (em pw : string) :
  (is_Some (Database.get_user_by_email t em)
   \/ is_Some (Database.get_user_by_id t (Database._generate_user_id em))) ->
  Database.add_user t name em pw
  = match Database.bind_text name with
    | inl e => inl e
    | inr _ => inr (t, None)
    end.
Proof.
  intros Htaken. unfold Database.add_user.
  destruct (Database.bind_text name) as [e|fn]; [done|].
  destruct (Database.conflicts _ _ _) eqn:Hc; [done|].
  apply conflicts_false in Hc as [Hem Hid].
  apply get_user_by_email_None in Hem. apply get_user_by_id_None in Hid.
  rewrite Hem, Hid in Htaken. by destruct Htaken as [[]|[]].
Qed.

(** X3. In a table that meets its constraints every row is the one
    [get_user_by_email] finds under its address and the one
    [get_user_by_id] finds under its id. *)
Theorem lookups_agree
    (t : list Database.user_row) (row : Database.user_row) :
  table_ok t ->
  row ∈ t ->
  Database.get_user_by_email t (Database.email row) = Some row
  /\ Database.get_user_by_id t (Database.id row) = Some row.
Proof.
  intros [He Hi] Hrow.
  unfold Database.get_user_by_email, Database.get_user_by_id.
  induction t as [|r t IH]; [by apply elem_of_nil in Hrow|].
  simpl in *. apply NoDup_cons in He as [He1 He2].
  apply NoDup_cons in Hi as [Hi1 Hi2].
  apply elem_of_cons in Hrow as [->|Hrow].
  - by rewrite !bool_decide_eq_true_2.
  - rewrite !bool_decide_eq_false_2; [by apply IH|..].
    + intros E. apply Hi1. rewrite E. by apply list_elem_of_fmap_2.
    + intros E. apply He1. rewrite E. by apply list_elem_of_fmap_2.
Qed.

End DatabaseFacts.

(** ** What a handler adds to the tables and to the wire *)

Section Effects.

Context `{!Libraries}.

Lemma effect_refl σ : effect σ σ.
Proof.
  split_and!; [by left..|]. exists []. by rewrite app_nil_r.
Qed.

Lemma effect_write h data σ s key :
  heap σ !! h = Some s -> secure_channel s = Some key ->
  effect σ (write h (Encrypted data) σ).
Proof.
  intros Hh Hk. split_and!; [by left..|]. eexists. split; [done|].
  apply Forall_singleton. split; [by eexists|by exists s, key].
Qed.

Lemma send_json_effect h data σ : effect σ (send_json h data σ).2.
Proof.
  unfold send_json, bind, self, modify, ret.
  destruct (heap σ !! h) as [s|] eqn:Hh; [|apply effect_refl].
  destruct (secure_channel s) eqn:Hk; [|apply effect_refl].
  by eapply effect_write.
Qed.

Lemma send_json_outcome h data σ :
  (heap σ !! h = None /\ send_json h data σ = (inl OtherError, σ))
  \/ send_json h data σ = (inr tt, σ)
  \/ exists s key,
       heap σ !! h = Some s /\ secure_channel s = Some key
       /\ send_json h data σ = (inr tt, write h (Encrypted data) σ).
Proof.
  unfold send_json, bind, self, modify, ret, raise.
  destruct (heap σ !! h) as [s|]; [|auto].
  destruct (secure_channel s) eqn:Hk; eauto 10.
Qed.

Ltac send_outcomes :=
  repeat match goal with
         | E : send_json ?a ?b ?c = _ |- _ =>
             let E' := fresh in
             destruct (send_json_outcome a b c)
               as [[? E']|[E'|(? & ? & ? & ? & E')]];
             rewrite E' in E; clear E'; simplify_eq/=
         end.

Ltac effect_solve :=
  split_and!; simpl;
  [ first [by left | by right | right; unfold signed_up; by eauto 10]
  | first [by left | right; unfold stored; by eauto 10]
  | first [ by (exists []; rewrite app_nil_r)
          | eexists; split; [done|];
            repeat constructor; simpl; by eauto 10 ] ].

Lemma route_chat_message_effect h envelope σ :
  effect σ (route_chat_message h envelope σ).2.
Proof.
  unfold route_chat_message, try_except, bind, lift, gets, modify, ret, raise,
    self, UserRegistry.get_session_by_id.
  repeat (branch; simplify_eq/=); send_outcomes;
    try apply send_json_effect; try apply effect_refl.
  all: effect_solve.
Qed.

Lemma add_user_None t name em pw t' :
  Database.add_user t name em pw = inr (t', None) -> t' = t.
Proof.
  unfold Database.add_user. intros E.
  destruct (Database.bind_text name); [done|].
  by destruct (Database.conflicts _ _ _); simplify_eq.
Qed.

Lemma _perform_signup_effect h envelope salt σ :
  effect σ (_perform_signup h envelope salt σ).2.
Proof.
  unfold _perform_signup, try_except, bind, lift, gets, modify, ret, raise.
  repeat (branch; simplify_eq/=); send_outcomes;
    try apply send_json_effect; try apply effect_refl.
  all: try match goal with
       | E : Database.add_user _ ?n (PyStr.lower (PyStr.strip ?e)) ?pw
             = inr ?p |- _ =>
           destruct p as [t' [uid|]]; simpl in *;
             [assert (signed_up (users σ) t') by (by exists n, e, pw, uid)
             |apply add_user_None in E as ->]
       end.
  all: effect_solve.
Qed.

Lemma _process_message_effect h envelope σ :
  effect σ (_process_message h envelope σ).2.
Proof.
  unfold _process_message, bind, lift, gets, UserRegistry.get_online_users_list.
  destruct (Py.get envelope "type") as [e|t]; simpl; [apply effect_refl|].
  destruct (Py.eq_str t "chat"); [apply route_chat_message_effect|].
  destruct (Py.eq_str t "whoisonline"); apply send_json_effect.
Qed.

Lemma _perform_login_effect h envelope σ :
  effect σ (_perform_login h envelope σ).2.
Proof.
  unfold _perform_login, try_except, bind, lift.
  destruct (Py.getitem envelope "payload") as [e|payload]; simpl;
    [destruct (key_or_type_error e);
     [apply send_json_effect|apply effect_refl]|].
  destruct (Py.getitem payload "email") as [e|em]; simpl;
    [destruct (key_or_type_error e);
     [apply send_json_effect|apply effect_refl]|].
  destruct (Py.getitem payload "password") as [e|pw]; simpl;
    [destruct (key_or_type_error e);
     [apply send_json_effect|apply effect_refl]|].
  destruct (Py.as_str em) as [e|em_str]; simpl;
    [destruct (key_or_type_error e);
     [apply send_json_effect|apply effect_refl]|].
  destruct (authenticate_cases (PyStr.lower (PyStr.strip em_str)) pw σ)
    as [[e ->]|[->|(row & -> & Hrow)]]; simpl.
  - destruct (key_or_type_error e);
     [apply send_json_effect|apply effect_refl].
  - destruct (send_json_outcome h
                (status_message "error" "Login failed. Invalid credentials.")
                σ) as [[? ->]|[->|(? & ? & ? & ? & ->)]]; simpl;
      [apply effect_refl..|by eapply effect_write].
  - unfold update_self, UserRegistry.register_user, modify. simpl.
    match goal with
    | |- context [send_json ?a ?b ?c] =>
        destruct (send_json_outcome a b c)
          as [[? ->]|[->|(s' & key & Hs' & Hk & ->)]]; simpl
    end.
    1, 2: effect_solve.
    simpl in Hs'. destruct (heap σ !! h) as [s|] eqn:Hh.
    + rewrite lookup_insert_eq in Hs'. simplify_eq/=. effect_solve.
    + rewrite Hh in Hs'. done.
Qed.

Lemma dispatch_effect h l salt σ : effect σ (dispatch h l salt σ).2.
Proof.
  destruct l as [| |envelope]; simpl; [apply effect_refl..|].
  unfold bind at 1, self. destruct (heap σ !! h) as [s|]; [|apply effect_refl].
  rewrite snd_bind_ret.
  destruct (is_authenticated s); simpl; [apply _process_message_effect|].
  unfold bind, lift.
  destruct (Py.get envelope "type") as [e|t]; simpl; [apply effect_refl|].
  destruct (Py.eq_str t "login"); [apply _perform_login_effect|].
  destruct (Py.eq_str t "signup");
    [apply _perform_signup_effect|apply send_json_effect].
Qed.

(** The loop's bookkeeping and the [finally] block touch neither the
    tables nor the wire. *)
Lemma resume_tables h (phase : M bool) next σ :
  users (resume h phase next σ) = users (phase σ).2
  /\ messages (resume h phase next σ) = messages (phase σ).2
  /\ wire (resume h phase next σ) = wire (phase σ).2.
Proof.
  unfold resume, teardown, update_self, UserRegistry.unregister_user, bind,
    self, modify, ret.
  destruct (phase σ) as [[e|[]] σ']; simpl; [|done|];
    destruct (heap σ' !! h) as [s|]; simpl; try done;
    by destruct (is_authenticated s && _).
Qed.


End Effects.

(** ** How an event moves the session objects *)

Section Sessions.

Context `{!Libraries}.

Lemma handshake_outcome h l σ s :
  heap σ !! h = Some s ->
  (exists r, r <> inr true /\ handshake h l σ = (r, σ))
  \/ exists c,
       length c = 32%nat
       /\ handshake h l σ
          = (inr true,
             write h (Encrypted handshake_complete) (keyed_state h s c σ)).
Proof.
  intros Hh. unfold handshake.
  destruct l as [| |envelope];
    [left; by eexists; split; [|reflexivity]..|].
  unfold bind, lift. destruct (Py.get envelope "type") as [e|t]; simpl.
  { left. by eexists; split; [|reflexivity]. }
  destruct (negb (Py.eq_str t "key_exchange")).
  { left. by eexists; split; [|reflexivity]. }
  destruct (_handle_key_exchange_cases h envelope σ s Hh)
    as [->|(c & Hc & ->)].
  - left. by eexists; split; [|reflexivity].
  - right. by exists c.
Qed.

Lemma teardown_heap h s σ :
  heap σ !! h = Some s ->
  heap (teardown h σ).2 = <[h := at_ s Closed]> (heap σ).
Proof.
  intros Hh. rewrite (teardown_eq h s σ Hh). unfold teardown_state. simpl.
  by destruct (is_authenticated s && _).
Qed.

Lemma recv_heap h l salt σ s :
  heap σ !! h = Some s ->
  exists s', heap (recv h l salt σ) = <[h := s']> (heap σ)
             /\ session_step (users σ) s s'.
Proof.
  intros Hh. unfold recv. rewrite Hh.
  destruct (at_stage s) eqn:Hst.
  - unfold resume.
    destruct (handshake_outcome h l σ s Hh) as [(r & Hr & ->)|(c & Hc & ->)].
    + exists (at_ s Closed). split; [|apply closes; by rewrite Hst].
      replace (match r with inr true => _ | _ => (teardown h σ).2 end)
        with (teardown h σ).2 by (by destruct r as [?|[]]).
      by apply teardown_heap.
    + exists (at_ (with_channel s c) Dispatch). split; [|by apply keyed].
      rewrite (update_self_eq _ _ _ (with_channel s c))
        by (simpl; by rewrite lookup_insert_eq).
      simpl. by rewrite insert_insert_eq.
  - destruct (dispatch_cases h l salt σ s Hh)
      as [Hq|(Ha & row & σ1 & Hrow & E & Hq)].
    + unfold resume. destruct (dispatch h l salt σ) as [r σ'] eqn:E.
      simpl in Hq. destruct Hq as (Hheap & _).
      assert (Hh' : heap σ' !! h = Some s) by (by rewrite Hheap).
      destruct r as [e|[]].
      * exists (at_ s Closed). split; [|apply closes; by rewrite Hst].
        by rewrite (teardown_heap h s σ' Hh'), Hheap.
      * exists s. split; [|apply stays].
        rewrite (update_self_eq _ _ _ _ Hh'). simpl.
        rewrite Hheap. f_equal. destruct s. simpl in *. by subst.
      * exists (at_ s Closed). split; [|apply closes; by rewrite Hst].
        by rewrite (teardown_heap h s σ' Hh'), Hheap.
    + exists (logged_in s row). split; [|by apply logs_in].
      unfold resume. rewrite E. destruct Hq as (Hheap & _).
      assert (Hh' : heap σ1 !! h = Some (logged_in s row)).
      { rewrite Hheap. simpl. by rewrite lookup_insert_eq. }
      rewrite (update_self_eq _ _ _ _ Hh'). simpl. rewrite Hheap. simpl.
      rewrite insert_insert_eq. f_equal. unfold at_, logged_in. simpl.
      by rewrite Hst.
  - exists s. split; [|apply stays]. by rewrite insert_id.
Qed.

Lemma step_sessions σ e :
  (forall h, h <> handle_of e -> heap (step σ e) !! h = heap σ !! h)
  /\ match heap σ !! handle_of e with
     | Some s =>
         exists s', heap (step σ e) !! handle_of e = Some s'
                    /\ session_step (users σ) s s'
     | None =>
         heap (step σ e) !! handle_of e
         = match e with
           | Accept _ => Some new_session
           | Recv _ _ _ => None
           end
     end.
Proof.
  destruct e as [h0|h0 l salt]; simpl.
  - unfold accept. destruct (heap σ !! h0) as [s|] eqn:Hh; simpl.
    + rewrite Hh. split; [done|]. exists s. split; [done|apply stays].
    + rewrite lookup_insert_eq. split; [|done].
      intros h Hne. by rewrite lookup_insert_ne.
  - destruct (heap σ !! h0) as [s|] eqn:Hh.
    + destruct (recv_heap h0 l salt σ s Hh) as (s' & -> & Hs').
      rewrite lookup_insert_eq. split; [|by exists s'].
      intros h Hne. by rewrite lookup_insert_ne.
    + unfold recv. by rewrite Hh.
Qed.

End Sessions.

(** ** Runs: sessions only advance, tables and wire only grow *)

Section Traces.

Context `{!Libraries}.

Lemma session_step_advances t s s' :
  session_step t s s' ->
  rank (state_of s) <= rank (state_of s')
  /\ (is_authenticated s = true ->
      is_authenticated s' = true /\ user_id s' = user_id s
      /\ full_name s' = full_name s /\ email s' = email s)
  /\ (at_stage s <> AwaitKey ->
      at_stage s' <> AwaitKey /\ secure_channel s' = secure_channel s)
  /\ (state_of s = CLOSED -> s' = s).
Proof.
  unfold state_of.
  destruct 1 as [|Hst|c Hst Hc|row Hst Ha Hrow]; simpl.
  - done.
  - split_and!; [|done|done|].
    + destruct (at_stage s); [|destruct (is_authenticated s)|]; simpl; lia.
    + destruct (at_stage s); [|destruct (is_authenticated s)|]; done.
  - rewrite Hst. split_and!; [simpl; lia|done..].
  - rewrite Hst, Ha. split_and!; [simpl; lia|done..].
Qed.

(** X4. Whatever events follow, a session object stays on the heap and
    only advances through HANDSHAKE, UNAUTH, AUTH, CLOSED; once
    authenticated it keeps its user id, name and address; once past the
    handshake it keeps its secure channel; once CLOSED it does not change
    any more; and events of other sessions do not change it at all. *)
Theorem sessions_only_advance
    (σ : Server) (es : list event) (h : nat) (s : ClientSession) :
  heap σ !! h = Some s ->
  exists s',
    heap (fold_left step es σ) !! h = Some s'
    /\ rank (state_of s) <= rank (state_of s')
    /\ (is_authenticated s = true ->
        is_authenticated s' = true /\ user_id s' = user_id s
        /\ full_name s' = full_name s /\ email s' = email s)
    /\ (at_stage s <> AwaitKey ->
        at_stage s' <> AwaitKey /\ secure_channel s' = secure_channel s)
    /\ (state_of s = CLOSED -> s' = s)
    /\ (Forall (fun e => handle_of e <> h) es -> s' = s).
Proof.
  revert σ s. induction es as [|e es IH]; intros σ s Hh; simpl.
  { exists s. by split_and!. }
  destruct (step_sessions σ e) as [Hother Hown].
  assert (exists s1, heap (step σ e) !! h = Some s1
                     /\ session_step (users σ) s s1
                     /\ (handle_of e <> h -> s1 = s))
    as (s1 & Hs1 & Hstep & Hsame).
  { destruct (decide (h = handle_of e)) as [->|Hne].
    - rewrite Hh in Hown. destruct Hown as (s1 & ? & ?). exists s1.
      by split_and!.
    - exists s. rewrite Hother by done. split_and!; [done|apply stays|done]. }
  destruct (IH _ _ Hs1) as (s' & Hs' & Hr & Ha & Hc & Hcl & Hst).
  destruct (session_step_advances _ _ _ Hstep) as (Hr1 & Ha1 & Hc1 & Hcl1).
  exists s'. split_and!; [done|lia|..].
  - intros A. destruct (Ha1 A) as (A1 & E1 & E2 & E3).
    destruct (Ha A1) as (? & ? & ? & ?). split_and!; congruence.
  - intros C. destruct (Hc1 C) as (C1 & E1).
    destruct (Hc C1) as (? & ?). split; congruence.
  - intros C. assert (s1 = s) as -> by auto. auto.
  - intros [Hne Hes]%Forall_cons. assert (s1 = s) as -> by auto. auto.
Qed.

Lemma signed_up_prefix t t' : signed_up t t' -> t `prefix_of` t'.
Proof.
  intros (name & em & pw & uid & E). unfold Database.add_user in E.
  destruct (Database.bind_text name); [done|].
  destruct (Database.conflicts _ _ _); simplify_eq. by eexists.
Qed.

Lemma stored_prefix σ m m' : stored σ m m' -> m `prefix_of` m'.
Proof.
  intros (h & s & r & p & _ & E). unfold Database.store_message in E.
  revert E. repeat (branch; try done). intros [= <-]. by eexists.
Qed.

Lemma effect_prefix σ σ' :
  effect σ σ' ->
  users σ `prefix_of` users σ' /\ messages σ `prefix_of` messages σ'
  /\ wire σ `prefix_of` wire σ'.
Proof.
  intros (Hu & Hm & l & Hl & _). split_and!.
  - destruct Hu as [->|Hu]; [done|by apply signed_up_prefix].
  - destruct Hm as [->|Hm]; [done|by eapply stored_prefix].
  - by exists l.
Qed.

(** The tables and the wire after the event [Recv h l salt] in terms of
    the phase the session is in. *)
Lemma recv_effect h l salt σ :
  effect σ (recv h l salt σ)
  \/ exists s c,
       heap σ !! h = Some s /\ at_stage s = AwaitKey
       /\ secure_channel <$> heap (recv h l salt σ) !! h = Some (Some c)
       /\ users (recv h l salt σ) = users σ
       /\ messages (recv h l salt σ) = messages σ
       /\ wire (recv h l salt σ)
          = (wire σ ++ [(h, Encrypted handshake_complete)])%list.
Proof.
  unfold recv. destruct (heap σ !! h) as [s|] eqn:Hh; [|left; apply effect_refl].
  destruct (at_stage s) eqn:Hst; [| |left; apply effect_refl].
  - destruct (resume_tables h (handshake h l) Dispatch σ) as (Hu & Hm & Hw).
    destruct (handshake_outcome h l σ s Hh) as [(r & Hr & E)|(c & Hc & E)].
    + left. rewrite E in *. simpl in *. split_and!; [by left..|].
      exists []. by rewrite app_nil_r.
    + right. exists s, c. rewrite E in Hu, Hm, Hw. split_and!; try done.
      unfold resume. rewrite E.
      rewrite (update_self_eq _ _ _ (with_channel s c))
        by (simpl; by rewrite lookup_insert_eq).
      simpl. by rewrite lookup_insert_eq.
  - left.
    destruct (resume_tables h (dispatch h l salt) Dispatch σ)
      as (Hu & Hm & Hw).
    destruct (dispatch_effect h l salt σ) as (Hu' & Hm' & Hw').
    split_and!; by rewrite ?Hu, ?Hm, ?Hw.
Qed.

Lemma step_prefix σ e :
  users σ `prefix_of` users (step σ e)
  /\ messages σ `prefix_of` messages (step σ e)
  /\ wire σ `prefix_of` wire (step σ e).
Proof.
  destruct e as [h|h l salt]; simpl.
  - unfold accept. destruct (heap σ !! h); [done|]. simpl.
    split_and!; [done..|by eexists].
  - destruct (recv_effect h l salt σ)
      as [He|(s & c & _ & _ & _ & -> & -> & ->)];
      [by apply effect_prefix|].
    split_and!; [done..|by eexists].
Qed.

(** X5. No event removes or rewrites a user row, a stored message or a
    frame that was sent: the two tables and the wire of a state are
    prefixes of those of every later state. *)
Theorem tables_and_wire_only_grow (σ : Server) (es : list event) :
  users σ `prefix_of` users (fold_left step es σ)
  /\ messages σ `prefix_of` messages (fold_left step es σ)
  /\ wire σ `prefix_of` wire (fold_left step es σ).
Proof.
  revert σ. induction es as [|e es IH]; intros σ; simpl; [done|].
  destruct (step_prefix σ e) as (Hu & Hm & Hw).
  destruct (IH (step σ e)) as (Hu' & Hm' & Hw').
  split_and!; by etrans.
Qed.

End Traces.

(** ** Identities come from the users table *)

Section Identities.

Context `{!Libraries}.

Lemma add_user_Some t name em pw t' uid :
  Database.add_user t name em pw = inr (t', Some uid) ->
  uid = Database._generate_user_id em
  /\ (em ∉ Database.email <$> t) /\ (uid ∉ Database.id <$> t)
  /\ exists fn, t' = (t ++ [Database.mk_user uid fn em pw])%list.
Proof.
  unfold Database.add_user. intros E.
  remember (Database._generate_user_id em) as g eqn:Hg.
  destruct (Database.bind_text name) as [e|fn]; [done|].
  destruct (Database.conflicts _ _ _) eqn:Hc; simplify_eq.
  apply conflicts_false in Hc as [Hem Hid]. split_and!; try done.
  by exists fn.
Qed.

Lemma store_message_Some m sender recipient payload m' :
  Database.store_message m sender recipient payload = inr m' ->
  exists su r text,
    sender = Some su /\ payload = JStr text
    /\ Database.bind_text recipient = inr (Some r)
    /\ m' = (m ++ [Database.mk_message su r (PyStr.encode_utf8 text)])%list.
Proof.
  unfold Database.store_message. intros E.
  destruct payload as [| | |text| |]; try done. simpl in E.
  destruct sender as [su|]; simpl in E.
  - destruct (Database.bind_text recipient) as [e|[r|]]; simplify_eq.
    by exists su, r, text.
  - by destruct (Database.bind_text recipient) as [e|[r|]].
Qed.

Lemma session_step_identity t s s' u :
  session_step t s s' -> user_id s' = Some u ->
  (user_id s = Some u /\ full_name s' = full_name s /\ email s' = email s)
  \/ exists row, row ∈ t /\ Database.id row = u
                 /\ full_name s' = Database.full_name row
                 /\ email s' = Some (Database.email row).
Proof.
  destruct 1 as [|Hst|c Hst Hc|row Hst Ha Hrow]; simpl; intros Hu; auto.
  right. exists row. by simplify_eq.
Qed.

Lemma db_inv_users σ σ' :
  db_inv σ ->
  (users σ' = users σ \/ signed_up (users σ) (users σ')) ->
  users σ ⊆ users σ'
  /\ table_ok (users σ')
  /\ forall row,
       row ∈ users σ' ->
       Database.id row = Database._generate_user_id (Database.email row)
       /\ normalize (Database.email row) = Database.email row.
Proof.
  intros D [->|(name & em & pw & uid & E)]; [by destruct D|].
  apply add_user_Some in E as (Hid & Hem & Huid & fn & ->).
  split_and!.
  - intros row Hrow. apply elem_of_app. by left.
  - apply table_ok_app; [by destruct D|done..].
  - intros row [Hrow|Hrow]%elem_of_app; [by apply (db_rows σ D)|].
    apply list_elem_of_singleton in Hrow as ->.
    cbn [Database.id Database.email]. split; [|apply normalize_twice].
    rewrite Hid. unfold Database._generate_user_id.
    fold (normalize (normalize em)). fold (normalize em).
    by rewrite normalize_twice.
Qed.

Lemma db_inv_recv σ h l salt : db_inv σ -> db_inv (recv h l salt σ).
Proof.
  intros D. destruct (heap σ !! h) as [s|] eqn:Hh;
    [|unfold recv; by rewrite Hh].
  destruct (recv_heap h l salt σ s Hh) as (s' & Hheap & Hstep).
  assert ((users (recv h l salt σ) = users σ
           \/ signed_up (users σ) (users (recv h l salt σ)))
          /\ (messages (recv h l salt σ) = messages σ
              \/ stored σ (messages σ) (messages (recv h l salt σ))))
    as [Hu Hm].
  { destruct (recv_effect h l salt σ)
      as [(? & ? & _)|(? & ? & _ & _ & _ & -> & -> & _)]; auto. }
  destruct (db_inv_users σ _ D Hu) as (Hsub & Htab & Hrows).
  split; [done|done|..].
  - intros h1 s1 u. rewrite Hheap.
    destruct (decide (h1 = h)) as [->|Hne].
    + rewrite lookup_insert_eq. intros [= <-] Hu1.
      destruct (session_step_identity _ _ _ _ Hstep Hu1)
        as [(Hus & -> & ->)|(row & Hrow & ?)].
      * destruct (db_sessions σ D h s u Hh Hus) as (row & Hrow & ?).
        exists row. split; [by apply Hsub|done].
      * exists row. split; [by apply Hsub|done].
    + rewrite lookup_insert_ne by done. intros Hh1 Hu1.
      destruct (db_sessions σ D h1 s1 u Hh1 Hu1) as (row & Hrow & ?).
      exists row. split; [by apply Hsub|done].
  - intros m Hmem.
    assert (m ∈ messages σ
            \/ exists h2 s2, heap σ !! h2 = Some s2
                             /\ user_id s2 = Some (Database.sender_id m))
      as [Hold|(h2 & s2 & Hh2 & Hu2)].
    { destruct Hm as [Hm|(h2 & s2 & r & p & Hh2 & E)];
        [left; by rewrite <- Hm|].
      apply store_message_Some in E as (su & r' & text & Hsu & _ & _ & E).
      rewrite E in Hmem.
      apply elem_of_app in Hmem as [?|Hmem]; [by left|].
      apply list_elem_of_singleton in Hmem as ->.
      right. by exists h2, s2. }
    + destruct (db_senders σ D m Hold) as (row & Hrow & ?).
      exists row. split; [by apply Hsub|done].
    + destruct (db_sessions σ D h2 s2 _ Hh2 Hu2) as (row & Hrow & ? & _).
      exists row. split; [by apply Hsub|done].
Qed.

Lemma db_inv_step σ e : db_inv σ -> db_inv (step σ e).
Proof.
  intros D. destruct e as [h|h l salt]; simpl; [|by apply db_inv_recv].
  unfold accept. destruct (heap σ !! h) eqn:Hh; [done|].
  destruct D as [D1 D2 D3 D4]. split; simpl; try done.
  intros h1 s1 u. destruct (decide (h1 = h)) as [->|Hne].
  - rewrite lookup_insert_eq. by intros [= <-].
  - rewrite lookup_insert_ne by done. apply D3.
Qed.

Lemma db_inv_initial : db_inv initial.
Proof.
  split; simpl.
  - split; apply NoDup_nil_2.
  - by intros row ?%elem_of_nil.
  - by intros h s u ?%lookup_empty_Some.
  - by intros m ?%elem_of_nil.
Qed.

Lemma db_inv_fold es σ : db_inv σ -> db_inv (fold_left step es σ).
Proof.
  revert σ. induction es as [|e es IH]; intros σ D; simpl; [done|].
  by apply IH, db_inv_step.
Qed.

(** X6. In every state the server reaches: the users table has no two rows
    with the same address or the same id; every row carries a normalised
    address and the id generated from it; a session that carries a user
    id carries the id, the name and the address of one row of the table;
    and the sender of every stored message is the id of a row. *)
Theorem identities_come_from_the_users_table (σ : Server) :
  reachable σ ->
  NoDup (Database.email <$> users σ)
  /\ NoDup (Database.id <$> users σ)
  /\ (forall row,
        row ∈ users σ ->
        Database.id row = Database._generate_user_id (Database.email row)
        /\ normalize (Database.email row) = Database.email row)
  /\ (forall h s u,
        heap σ !! h = Some s -> user_id s = Some u ->
        exists row, row ∈ users σ /\ Database.id row = u
                    /\ full_name s = Database.full_name row
                    /\ email s = Some (Database.email row))
  /\ forall m,
       m ∈ messages σ ->
       exists row, row ∈ users σ /\ Database.sender_id m = Database.id row.
Proof.
  intros [es <-].
  destruct (db_inv_fold es initial db_inv_initial) as [[D0 D1] D2 D3 D4].
  by split_and!.
Qed.

End Identities.

(** ** One plaintext frame per connection *)

Section Wire.

Context `{!Libraries}.

Lemma sent_to_app h σ σ' l :
  wire σ' = (wire σ ++ l)%list ->
  sent_to h σ'
  = (sent_to h σ
     ++ omap (fun hf => if bool_decide (hf.1 = h) then Some hf.2 else None) l
    )%list.
Proof. intros E. unfold sent_to. by rewrite E, omap_app. Qed.

Lemma encrypted_frames σ h l :
  Forall (encrypted_to σ) l ->
  exists ds,
    omap (fun hf => if bool_decide (hf.1 = h) then Some hf.2 else None) l
    = Encrypted <$> ds
    /\ (ds <> [] ->
        exists s key, heap σ !! h = Some s /\ secure_channel s = Some key).
Proof.
  induction 1 as [|[h1 f] l [[d Hd] (s & key & Hs & Hk)] _ (ds & IH & Hds)].
  { by exists []. }
  simpl in Hd, Hs. subst f. destruct (decide (h1 = h)) as [->|Hne].
  - exists (d :: ds). split; [|eauto]. simpl.
    rewrite bool_decide_eq_true_2 by done. f_equal. exact IH.
  - exists ds. split; [|done]. simpl.
    rewrite bool_decide_eq_false_2 by done. exact IH.
Qed.

(** A line read by a session either leaves every channel as it is, or it
    is the [key_exchange] that completes the handshake. *)
Lemma recv_summary h l salt σ s :
  heap σ !! h = Some s ->
  (effect σ (recv h l salt σ)
   /\ exists s', heap (recv h l salt σ) = <[h := s']> (heap σ)
                 /\ secure_channel s' = secure_channel s
                 /\ at_stage s' <> AwaitKey)
  \/ exists c,
       at_stage s = AwaitKey
       /\ heap (recv h l salt σ)
          = <[h := at_ (with_channel s c) Dispatch]> (heap σ)
       /\ wire (recv h l salt σ)
          = (wire σ ++ [(h, Encrypted handshake_complete)])%list.
Proof.
  intros Hh. destruct (at_stage s) eqn:Hst.
  - unfold recv. rewrite Hh, Hst.
    destruct (resume_tables h (handshake h l) Dispatch σ) as (Hu & Hm & Hw).
    destruct (handshake_outcome h l σ s Hh) as [(r & Hr & E)|(c & Hc & E)];
      rewrite E in Hu, Hm, Hw; simpl in Hu, Hm, Hw.
    + left. split.
      * split_and!; [by left..|]. exists []. by rewrite app_nil_r.
      * exists (at_ s Closed). unfold resume. rewrite E.
        replace (match r with inr true => _ | _ => (teardown h σ).2 end)
          with (teardown h σ).2 by (by destruct r as [?|[]]).
        by rewrite (teardown_heap h s σ Hh).
    + right. exists c. split; [done|]. split; [|done].
      unfold resume. rewrite E.
      rewrite (update_self_eq _ _ _ (with_channel s c))
        by (simpl; by rewrite lookup_insert_eq).
      simpl. by rewrite insert_insert_eq.
  - left. split.
    + destruct (recv_effect h l salt σ) as [?|(s1 & c & Hs1 & Hk & _)];
        [done|congruence].
    + destruct (recv_heap h l salt σ s Hh) as (s' & Hheap & Hstep).
      exists s'. split; [done|].
      destruct Hstep as [|?|c ? ?|row ? ? ?]; simpl;
        first [congruence | split; [done|congruence]].
  - left. unfold recv. rewrite Hh, Hst. split; [apply effect_refl|].
    exists s. rewrite insert_id by done. by rewrite Hst.
Qed.

Lemma framed_recv σ h0 l salt h :
  (forall h, framed σ h) -> framed (recv h0 l salt σ) h.
Proof.
  intros F. destruct (heap σ !! h0) as [s0|] eqn:Hh0;
    [|unfold recv; rewrite Hh0; apply F].
  pose proof (F h) as Fh. unfold framed in *.
  destruct (recv_summary h0 l salt σ s0 Hh0)
    as [((_ & _ & fs & Hw & Hfs) & s' & Hheap & Hk & Hst)
       |(c & Hst & Hheap & Hw)];
    rewrite Hheap, (sent_to_app h _ _ _ Hw).
  - destruct (encrypted_frames σ h fs Hfs) as (ds & -> & Hds).
    destruct (decide (h = h0)) as [->|Hne].
    + rewrite lookup_insert_eq. rewrite Hh0 in Fh, Hds.
      destruct Fh as [_ Fh]. split; [done|]. rewrite Hk.
      destruct (secure_channel s0) as [key|] eqn:Hk0.
      * destruct Fh as (ds0 & ->). exists (ds0 ++ ds)%list.
        by rewrite fmap_app.
      * destruct ds as [|d ds]; [by rewrite app_nil_r|].
        destruct Hds as (? & ? & ? & ?); [done|]. congruence.
    + rewrite lookup_insert_ne by done.
      destruct (heap σ !! h) as [s|] eqn:Hh.
      * destruct Fh as [Fa Fh]. split; [done|].
        destruct (secure_channel s) as [key|] eqn:Hks.
        -- destruct Fh as (ds0 & ->). exists (ds0 ++ ds)%list.
           by rewrite fmap_app.
        -- destruct ds as [|d ds]; [by rewrite app_nil_r|].
           destruct Hds as (? & ? & ? & ?); [done|]. congruence.
      * destruct ds as [|d ds]; [by rewrite app_nil_r|].
        destruct Hds as (? & ? & ? & ?); [done|]. congruence.
  - simpl. destruct (decide (h = h0)) as [->|Hne].
    + rewrite lookup_insert_eq, bool_decide_eq_true_2 by done. simpl.
      rewrite Hh0 in Fh. destruct Fh as [Fa Fh].
      rewrite (Fa Hst) in Fh. rewrite Fh. split; [done|]. by exists [].
    + rewrite lookup_insert_ne, bool_decide_eq_false_2 by done.
      by rewrite app_nil_r.
Qed.

Lemma framed_step σ e : (forall h, framed σ h) -> forall h, framed (step σ e) h.
Proof.
  intros F h. destruct e as [h0|h0 l salt]; simpl; [|by apply framed_recv].
  unfold accept. destruct (heap σ !! h0) eqn:Hh0; [apply F|].
  pose proof (F h) as Fh. unfold framed, sent_to in *. simpl.
  rewrite omap_app. simpl.
  destruct (decide (h = h0)) as [->|Hne].
  - rewrite lookup_insert_eq, bool_decide_eq_true_2 by done. simpl.
    rewrite Hh0 in Fh. by rewrite Fh.
  - rewrite lookup_insert_ne, bool_decide_eq_false_2 by done.
    by rewrite app_nil_r.
Qed.

Lemma framed_fold es σ :
  (forall h, framed σ h) -> forall h, framed (fold_left step es σ) h.
Proof.
  revert σ. induction es as [|e es IH]; intros σ F; simpl; [done|].
  by apply IH, framed_step.
Qed.

(** X7. In every state the server reaches, a connection that was never
    accepted has been sent nothing; otherwise the first frame it was sent
    is the plaintext [handshake_start] with the server's public key, and
    it is the only plaintext one: while the session has no secure channel
    nothing else was sent, and once it has one every later frame is
    encrypted, the first of them being [handshake_complete]. A session
    still in the handshake has no channel. *)
Theorem one_plaintext_frame_per_connection (σ : Server) (h : nat) :
  reachable σ ->
  match heap σ !! h with
  | None => sent_to h σ = []
  | Some s =>
      (state_of s = HANDSHAKE -> secure_channel s = None)
      /\ match secure_channel s with
         | None => sent_to h σ = [Plaintext handshake_start]
         | Some _ =>
             exists ds,
               sent_to h σ
               = Plaintext handshake_start
                 :: Encrypted handshake_complete :: (Encrypted <$> ds)
         end
  end.
Proof.
  intros [es <-].
  assert (forall h, framed initial h) as F0 by done.
  pose proof (framed_fold es initial F0 h) as Fh. unfold framed, run in *.
  destruct (heap (fold_left step es initial) !! h) as [s|]; [|done].
  destruct Fh as [Fa Fh]. split; [|done].
  intros Hs. apply Fa. unfold state_of in Hs.
  destruct (at_stage s); [done|by destruct (is_authenticated s)|done].
Qed.

End Wire.

(** ** Accounts: login and sign-up *)

Section Accounts.

Context `{!Libraries}.

Lemma unauth_session σ h s :
  reachable σ -> heap σ !! h = Some s -> state_of s = UNAUTH ->
  at_stage s = Dispatch /\ is_authenticated s = false
  /\ exists key, secure_channel s = Some key.
Proof.
  intros Hr Hh Hs.
  destruct (reachable_session σ h s Hr Hh) as (Hst & key & Hk);
    [by rewrite Hs..|].
  split_and!; [done| |by exists key].
  unfold state_of in Hs. rewrite Hst in Hs. by destruct (is_authenticated s).
Qed.

(** A sign-up request read by a session in state UNAUTH. *)
Lemma recv_signup h o name em pw salt σ s :
  reachable σ -> heap σ !! h = Some s -> state_of s = UNAUTH ->
  is_signup o name em pw ->
  recv h (Envelope (JObj o)) salt σ
  = if Database.conflicts (users σ)
         (Database._generate_user_id (normalize em)) (normalize em)
    then write h (Encrypted signup_failed) σ
    else write h (Encrypted signup_ok)
           (set_users (users σ ++ [new_user name em pw salt])%list σ).
Proof.
  intros Hr Hh Hs Hsu.
  destruct (unauth_session σ h s Hr Hh Hs) as (Hst & Ha & key & Hk).
  eapply (recv_unauth h o salt σ s _ (_perform_signup h (JObj o) salt));
    try done.
  - intros t Ht. destruct Hsu as (Ht' & _). rewrite Ht' in Ht.
    by injection Ht as <-.
  - destruct Hsu as (-> & _). eauto.
  - by apply (_perform_signup_run h o name em pw salt σ s key).
  - by destruct (Database.conflicts _ _ _).
Qed.

(** X8. A login whose address, normalised, is in the users table and
    whose password bcrypt accepts puts the session into state AUTH under
    the id, the name and the address of that row, maps the id to the
    session in the registry, and answers with one frame, the [ok]
    response carrying the row's id, name and address; the tables are as
    they were, so no stored message is delivered or removed. *)
Theorem login_authenticates
    (σ : Server) (h : nat) (s : ClientSession) (o : list (string * json))
    (em pw : string) (row : Database.user_row) (salt : string) :
  reachable σ ->
  heap σ !! h = Some s ->
  state_of s = UNAUTH ->
  is_login o em pw ->
  Database.get_user_by_email (users σ) (normalize em) = Some row ->
  bcrypt_checkpw pw (Database.password row) = true ->
  let σ' := recv h (Envelope (JObj o)) salt σ in
  wire σ' = (wire σ ++ [(h, Encrypted (login_ok row))])%list
  /\ heap σ' = <[h := logged_in s row]> (heap σ)
  /\ state_of (logged_in s row) = AUTH
  /\ user_id (logged_in s row) = Some (Database.id row)
  /\ _online_users σ' = Py.dict_set (_online_users σ) (Database.id row) h
  /\ UserRegistry.get_session_by_id (JStr (Database.id row)) σ'
     = (inr (Some h), σ')
  /\ users σ' = users σ
  /\ messages σ' = messages σ
  /\ login_ok row
     = JObj [("type", JStr "response");
             ("payload",
              JObj [("status", JStr "ok");
                    ("message",
                     JStr ("Login successful. Welcome, "
                           ++ Py.str_opt (Database.full_name row) ++ "!"));
                    ("user_info",
                     JObj [("id", JStr (Database.id row));
                           ("full_name",
                            Py.of_opt (Database.full_name row));
                           ("email", JStr (Database.email row))])])].
Proof.
  intros Hr Hh Hs Hli Hrow Hpw σ'.
  destruct (unauth_session σ h s Hr Hh Hs) as (Hst & Ha & key & Hk).
  assert (E : σ' = write h (Encrypted (login_ok row)) (login_state h s row σ))
    by (by apply (recv_login_ok h o em pw row salt σ s)).
  clearbody σ'. subst σ'. split_and!; try done.
  - unfold state_of. simpl. by rewrite Hst.
  - unfold UserRegistry.get_session_by_id, gets. cbn [_online_users write
      login_state set_online set_heap]. by rewrite PyFacts.dict_get_set_eq.
Qed.

Lemma conflicts_email t uid em row :
  Database.get_user_by_email t em = Some row ->
  Database.conflicts t uid em = true.
Proof.
  intros Hrow. destruct (Database.conflicts t uid em) eqn:Hc; [done|].
  apply conflicts_false in Hc as [Hem _].
  apply get_user_by_email_None in Hem. congruence.
Qed.

(** X9. A sign-up under an address that, normalised, is already in the
    users table is answered with the error [Sign-up failed. Email already
    exists.]; the users table, and with it the password of the account,
    the session and the registry stay as they are. *)
Theorem signup_taken_address_rejected
    (σ : Server) (h : nat) (s : ClientSession) (o : list (string * json))
    (name em pw salt : string) (row : Database.user_row) :
  reachable σ ->
  heap σ !! h = Some s ->
  state_of s = UNAUTH ->
  is_signup o name em pw ->
  Database.get_user_by_email (users σ) (normalize em) = Some row ->
  recv h (Envelope (JObj o)) salt σ = write h (Encrypted signup_failed) σ
  /\ signup_failed
     = JObj [("type", JStr "response");
             ("payload",
              JObj [("status", JStr "error");
                    ("message",
                     JStr "Sign-up failed. Email already exists.")])].
Proof.
  intros Hr Hh Hs Hsu Hrow. split; [|done].
  rewrite (recv_signup h o name em pw salt σ s Hr Hh Hs Hsu).
  by rewrite (conflicts_email _ _ _ row Hrow).
Qed.

(** X10. Signing up and then logging in succeeds: when neither the
    normalised address nor the id generated from it is in the users
    table, and bcrypt accepts a password against its own hash, a sign-up
    followed on the same connection by a login with the same password and
    an address with the same normal form leaves the session in state AUTH
    as the new user, registered under the generated id; the two answers
    are the [ok] responses of sign-up and login. *)
Theorem signup_then_login
    (σ : Server) (h : nat) (s : ClientSession)
    (o1 o2 : list (string * json)) (name em em' pw salt salt' : string) :
  reachable σ ->
  heap σ !! h = Some s ->
  state_of s = UNAUTH ->
  is_signup o1 name em pw ->
  is_login o2 em' pw ->
  normalize em' = normalize em ->
  Database.conflicts (users σ)
    (Database._generate_user_id (normalize em)) (normalize em) = false ->
  bcrypt_checkpw pw (bcrypt_hashpw pw salt) = true ->
  let row := new_user name em pw salt in
  let σ1 := recv h (Envelope (JObj o1)) salt σ in
  let σ2 := recv h (Envelope (JObj o2)) salt' σ1 in
  users σ2 = (users σ ++ [row])%list
  /\ wire σ2
     = (wire σ ++ [(h, Encrypted signup_ok); (h, Encrypted (login_ok row))]
       )%list
  /\ heap σ2 = <[h := logged_in s row]> (heap σ)
  /\ state_of (logged_in s row) = AUTH
  /\ user_id (logged_in s row)
     = Some (Database._generate_user_id (normalize em))
  /\ Py.dict_get (_online_users σ2)
       (Database._generate_user_id (normalize em)) = Some h.
Proof.
  intros Hr Hh Hs Hsu Hli Hem Hfree Hpw row σ1 σ2.
  destruct (unauth_session σ h s Hr Hh Hs) as (Hst & Ha & key & Hk).
  assert (E1 : σ1 = write h (Encrypted signup_ok)
                      (set_users (users σ ++ [row])%list σ)).
  { unfold σ1. rewrite (recv_signup h o1 name em pw salt σ s Hr Hh Hs Hsu).
    by rewrite Hfree. }
  assert (Hr1 : reachable σ1) by apply (reachable_step σ (Recv h _ salt) Hr).
  assert (Hrow : Database.get_user_by_email (users σ1) (normalize em')
                 = Some row).
  { rewrite E1, Hem. cbn [users write set_users].
    rewrite get_user_by_email_app.
    apply conflicts_false in Hfree as [Hfree _].
    apply get_user_by_email_None in Hfree as ->.
    unfold row, new_user. cbn [Database.email].
    by rewrite bool_decide_eq_true_2. }
  assert (E2 : σ2 = write h (Encrypted (login_ok row))
                      (login_state h s row σ1)).
  { unfold σ2. apply (recv_login_ok h o2 em' pw row salt' σ1 s); try done.
    by rewrite E1. }
  clearbody σ1 σ2. subst σ2 σ1.
  split_and!; try done.
  - cbn [wire write login_state set_online set_heap set_users].
    by rewrite <- app_assoc.
  - unfold state_of. cbn [at_stage logged_in is_authenticated].
    by rewrite Hst.
  - cbn [_online_users write login_state set_online set_heap set_users].
    unfold row, new_user. cbn [Database.id].
    by rewrite PyFacts.dict_get_set_eq.
Qed.

End Accounts.

(** * Concrete runs

    The theorems above at concrete inputs, over the executable instance
    of the libraries. *)

Module Concrete.
Import Model ModelFacts Runs.

(** Closes a hypothesis about a concrete run by evaluation. *)
Ltac concrete :=
  first [by eexists | vm_compute; reflexivity | vm_compute; lia].

(** C2, at a concrete key, nonce and message, over the executable
    instance of the libraries. *)
Lemma decrypt_encrypt_and_tamper_witness :
  let key := replicate 32 Byte.x2a in
  let nonce := replicate 12 Byte.x07 in
  decrypt key (encrypt key nonce "hi") = inr "hi"
  /\ forall blob i,
       b64decode (encrypt key nonce "hi") = Some blob ->
       (i < 8 * length blob)%nat ->
       decrypt key (b64encode (flip_bit i blob)) = inl ValueError.
Proof.
  intros key nonce.
  apply (decrypt_encrypt_and_tamper key nonce "hi" key); reflexivity.
Defined.

(** C4, as stated, fails: after two logins of the same user the registry
    has one entry and two sessions are in state AUTH. *)
Lemma registry_cardinality_counterexample :
  exists σ, reachable σ
            /\ length (_online_users σ) = 1
            /\ size (auth_sessions σ) = 2
            /\ length (_online_users σ) <> size (auth_sessions σ).
Proof.
  exists (run double_login). split; [by exists double_login|].
  vm_compute. repeat split; lia.
Qed.

(** C4 as amended on a run without double login: Alice and Bob are both
    online and the registry has as many entries as there are sessions in
    state AUTH. *)
Lemma registry_entries_authenticated_witness :
  let σ := run both_online in
  length (_online_users σ) <= size (auth_sessions σ)
  /\ NoDup (_online_users σ).*1
  /\ (forall u h,
        (u, h) ∈ _online_users σ ->
        exists s, heap σ !! h = Some s
                  /\ state_of s = AUTH
                  /\ is_authenticated s = true
                  /\ user_id s = Some u)
  /\ length (_online_users σ) = size (auth_sessions σ).
Proof.
  intros σ.
  destruct (registry_entries_authenticated both_online) as (H1 & H2 & H3 & H4).
  split_and!; [done..|].
  apply H4, exclusive_prefixes. vm_compute. reflexivity.
Defined.

(** C1 at a spoofed chat from Alice to Bob. *)
Lemma delivered_sender_is_session_witness :
  let σ := run both_online in
  exists u,
    user_id alice_session = Some u
    /\ is_authenticated alice_session = true
    /\ recv 0 (Envelope (JObj spoofed_chat)) "-" σ
       = write 1
           (Encrypted (new_message (JStr u)
                         (Py.of_opt (full_name alice_session)) (JStr "hi")))
           σ.
Proof.
  intros σ.
  apply (delivered_sender_is_session σ 0 1 alice_session spoofed_chat
           [("sender_id", JStr "mallory"); ("sender_name", JStr "Mallory");
            ("recipient_id", JStr bob_id); ("text", JStr "hi")]
           bob_id (JStr "hi") "-"); concrete.
Defined.


(** The offline branch of C6 on a run: Alice writes to Bob, who never
    connected; one row is stored and Alice gets the reply. *)
Example offline_chat_stored :
  let σ := run alice_online in
  let σ' := recv 0 (Envelope (JObj (chat_to bob_id "later"))) "-" σ in
  messages σ = []
  /\ messages σ'
     = [Database.mk_message alice_id bob_id (PyStr.encode_utf8 "later")]
  /\ wire σ' = (wire σ ++ [(0, Encrypted offline_reply)])%list.
Proof. vm_compute. by split_and!. Qed.

(** C7 at a chat sent before any login. *)
Lemma unauth_rejects_other_types_witness :
  let σ := run connected in
  let σ' := recv 0 (Envelope (JObj (chat_to bob_id "hi"))) "-" σ in
  σ' = write 0 (Encrypted not_authenticated) σ
  /\ not_authenticated
     = JObj [("type", JStr "response");
             ("payload",
              JObj [("status", JStr "error");
                    ("message",
                     JStr "Not authenticated. Send 'login' or 'signup'.")])]
  /\ heap σ' !! 0 = Some fresh_session
  /\ _online_users σ' = _online_users σ
  /\ forall u, Py.dict_get (_online_users σ') u <> Some 0.
Proof.
  intros σ.
  apply (unauth_rejects_other_types σ 0 fresh_session (chat_to bob_id "hi") "-");
    concrete.
Defined.

(** C3, as stated, fails: after [logout] Alice's session is still in state
    AUTH and registered, a response was written to it, and the loop goes
    on to answer the next command. *)
Lemma logout_counterexample :
  let σ := run alice_online in
  let σ' := recv 0 (Envelope (JObj logout)) "-" σ in
  let σ'' := recv 0 (envelope "whoisonline" []) "-" σ' in
  heap σ !! 0 = Some alice_session
  /\ state_of alice_session = AUTH
  /\ heap σ' !! 0 = Some alice_session
  /\ Py.dict_get (_online_users σ') alice_id = Some 0
  /\ wire σ' = (wire σ ++ [(0, Encrypted (unknown_command "logout"))])%list
  /\ length (wire σ'') = S (length (wire σ')).
Proof. vm_compute. by split_and!. Qed.

(** C3 as amended, at Alice's session. *)
Lemma logout_is_an_unknown_command_witness :
  let σ := run alice_online in
  let σ' := recv 0 (Envelope (JObj logout)) "-" σ in
  let σ'' := recv 0 EOF "-" σ' in
  σ' = write 0 (Encrypted (unknown_command "logout")) σ
  /\ heap σ' !! 0 = Some alice_session
  /\ _online_users σ' = _online_users σ
  /\ wire σ'' = wire σ'
  /\ (exists s', heap σ'' !! 0 = Some s' /\ state_of s' = CLOSED)
  /\ exists u, user_id alice_session = Some u
               /\ Py.dict_get (_online_users σ'') u = None.
Proof.
  intros σ.
  apply (logout_is_an_unknown_command σ 0 alice_session logout "-"); concrete.
Defined.



(** The failed login of C8 on a run: a wrong password, then the right
    one on the same connection. *)
Example wrong_password_then_login :
  let σ := run (connected ++ [Recv 0 (signup "Alice" "a@x" "p1") "s"]) in
  let σ' := recv 0 (login "a@x" "nope") "-" σ in
  let σ'' := recv 0 (login "a@x" "p1") "-" σ' in
  σ' = write 0 (Encrypted login_failed) σ
  /\ heap σ'' !! 0 = Some alice_session.
Proof. vm_compute. by split_and!. Qed.

(** C9 at a three-byte key. *)
Lemma bad_key_length_closes_witness :
  let σ := run [Accept 0] in
  let σ' := recv 0 (Envelope (JObj short_key_exchange)) "-" σ in
  SecureChannel (replicate 3 Byte.x00) = inl ValueError
  /\ wire σ' = wire σ
  /\ heap σ' = <[0 := at_ new_session Closed]> (heap σ)
  /\ state_of (at_ new_session Closed) = CLOSED
  /\ secure_channel (at_ new_session Closed) = secure_channel new_session
  /\ _online_users σ' = _online_users σ.
Proof.
  intros σ.
  apply (bad_key_length_closes σ 0 new_session short_key_exchange
           [("key", JStr "AAAA")] "AAAA" (replicate 3 Byte.x00)
           (replicate 3 Byte.x00) "-"); concrete.
Defined.

(** *** Outside the wire schema

    What the server does with envelopes the properties above leave out:
    their fields are there but not of the types of the wire schema. The
    handlers catch [KeyError] and [TypeError] only, so an [AttributeError]
    ends the session. *)

(** A sign-up without password is answered and the session goes on. *)
Example signup_without_password :
  let σ := run connected in
  let σ' :=
    recv 0 (envelope "signup" [("full_name", JStr "X"); ("email", JStr "x@y")])
         "s" σ in
  σ' = write 0 (Encrypted (status_message "error" "Malformed sign-up envelope."))
         σ.
Proof. vm_compute. reflexivity. Qed.

(** A sign-up whose e-mail address is a number closes the session without
    a response. *)
Example signup_with_number_closes :
  let σ := run connected in
  let σ' :=
    recv 0 (envelope "signup" [("full_name", JStr "X"); ("email", JNum 5);
                               ("password", JStr "p")]) "s" σ in
  wire σ' = wire σ /\ heap σ' !! 0 = Some (at_ fresh_session Closed)
  /\ users σ' = [].
Proof. vm_compute. by split_and!. Qed.

(** A chat to an offline recipient whose text is a number closes the
    sender's session: nothing is stored, no reply is sent, and Alice
    leaves the registry. *)
Example offline_chat_with_number_closes :
  let σ := run alice_online in
  let σ' :=
    recv 0 (envelope "chat" [("recipient_id", JStr bob_id); ("text", JNum 5)])
         "-" σ in
  wire σ' = wire σ /\ messages σ' = []
  /\ heap σ' !! 0 = Some (at_ alice_session Closed)
  /\ _online_users σ' = [].
Proof. vm_compute. by split_and!. Qed.

(** An inner envelope that is not an object closes the session. *)
Example array_envelope_closes :
  let σ := run connected in
  let σ' := recv 0 (Envelope (JArr [])) "-" σ in
  wire σ' = wire σ /\ heap σ' !! 0 = Some (at_ fresh_session Closed).
Proof. vm_compute. by split_and!. Qed.

(** *** The specification's happy path

    Alice signs up, logs in and is told her id, uuid5(DNS, "a@x"); she
    asks who is online and finds herself; she disconnects and the registry
    is empty. *)
Example happy_path :
  let σ := run alice_online in
  let σ' := recv 0 (envelope "whoisonline" []) "-" σ in
  let σ'' := recv 0 EOF "-" σ' in
  last (wire σ) = Some (0, Encrypted (login_ok alice_row))
  /\ Database.id alice_row = Uuid.uuid5 Uuid.NAMESPACE_DNS "a@x"
  /\ last (wire σ')
     = Some (0, Encrypted
                  (response
                     [("status", JStr "ok");
                      ("users",
                       JArr [JObj [("id", JStr alice_id);
                                   ("full_name", JStr "Alice")]])]))
  /\ _online_users σ' = [(alice_id, 0)]
  /\ _online_users σ'' = []
  /\ wire σ'' = wire σ'.
Proof. vm_compute. by split_and!. Qed.

(** X4, for the session of connection 0 from the end of its handshake
    through a sign-up, a login and the end of the connection. *)
Lemma sessions_only_advance_witness :
  exists s',
    heap (fold_left step
            [Recv 0 (signup "Alice" "a@x" "p1") "s";
             Recv 0 (login "a@x" "p1") "-"; Recv 0 EOF "-"]
            (run connected)) !! 0 = Some s'
    /\ rank (state_of fresh_session) <= rank (state_of s')
    /\ (is_authenticated fresh_session = true ->
        is_authenticated s' = true /\ user_id s' = user_id fresh_session
        /\ full_name s' = full_name fresh_session
        /\ email s' = email fresh_session)
    /\ (at_stage fresh_session <> AwaitKey ->
        at_stage s' <> AwaitKey
        /\ secure_channel s' = secure_channel fresh_session)
    /\ (state_of fresh_session = CLOSED -> s' = fresh_session)
    /\ (Forall (fun e => handle_of e <> 0)
          [Recv 0 (signup "Alice" "a@x" "p1") "s";
           Recv 0 (login "a@x" "p1") "-"; Recv 0 EOF "-"] ->
        s' = fresh_session).
Proof.
  apply (sessions_only_advance (run connected) _ 0 fresh_session). concrete.
Defined.

(** X6, in the state after Alice has signed up, logged in and written to
    somebody who is not online. *)
Lemma identities_come_from_the_users_table_witness :
  let σ := run (alice_online ++ [Recv 0 (chat "nobody" "hi") "-"]) in
  NoDup (Database.email <$> users σ)
  /\ NoDup (Database.id <$> users σ)
  /\ (forall row,
        row ∈ users σ ->
        Database.id row = Database._generate_user_id (Database.email row)
        /\ normalize (Database.email row) = Database.email row)
  /\ (forall h s u,
        heap σ !! h = Some s -> user_id s = Some u ->
        exists row, row ∈ users σ /\ Database.id row = u
                    /\ full_name s = Database.full_name row
                    /\ email s = Some (Database.email row))
  /\ forall m,
       m ∈ messages σ ->
       exists row, row ∈ users σ /\ Database.sender_id m = Database.id row.
Proof.
  intros σ. apply (identities_come_from_the_users_table σ). concrete.
Defined.

(** X7, for Alice's connection once she is logged in. *)
Lemma one_plaintext_frame_per_connection_witness :
  match heap (run alice_online) !! 0 with
  | None => sent_to 0 (run alice_online) = []
  | Some s =>
      (state_of s = HANDSHAKE -> secure_channel s = None)
      /\ match secure_channel s with
         | None => sent_to 0 (run alice_online) = [Plaintext handshake_start]
         | Some _ =>
             exists ds,
               sent_to 0 (run alice_online)
               = Plaintext handshake_start
                 :: Encrypted handshake_complete :: (Encrypted <$> ds)
         end
  end.
Proof.
  apply (one_plaintext_frame_per_connection (run alice_online) 0). concrete.
Defined.

(** X8, for Alice's login on the connection she signed up on. *)
Lemma login_authenticates_witness :
  let σ := run alice_signed_up in
  let σ' := recv 0 (Envelope (JObj login_alice)) "-" σ in
  wire σ' = (wire σ ++ [(0, Encrypted (login_ok alice_row))])%list
  /\ heap σ' = <[0 := logged_in fresh_session alice_row]> (heap σ)
  /\ state_of (logged_in fresh_session alice_row) = AUTH
  /\ user_id (logged_in fresh_session alice_row)
     = Some (Database.id alice_row)
  /\ _online_users σ'
     = Py.dict_set (_online_users σ) (Database.id alice_row) 0
  /\ UserRegistry.get_session_by_id (JStr (Database.id alice_row)) σ'
     = (inr (Some 0), σ')
  /\ users σ' = users σ
  /\ messages σ' = messages σ
  /\ login_ok alice_row
     = JObj [("type", JStr "response");
             ("payload",
              JObj [("status", JStr "ok");
                    ("message",
                     JStr ("Login successful. Welcome, "
                           ++ Py.str_opt (Database.full_name alice_row)
                           ++ "!"));
                    ("user_info",
                     JObj [("id", JStr (Database.id alice_row));
                           ("full_name",
                            Py.of_opt (Database.full_name alice_row));
                           ("email", JStr (Database.email alice_row))])])].
Proof.
  intros σ.
  apply (login_authenticates σ 0 fresh_session login_alice "a@x" "p1"
           alice_row "-");
    first [concrete
          | split; [reflexivity|]; eexists; split_and!; reflexivity].
Defined.

(** X9, for a second sign-up under Alice's address, written differently. *)
Lemma signup_taken_address_rejected_witness :
  recv 0 (Envelope (JObj signup_alice_again)) "s" (run alice_signed_up)
  = write 0 (Encrypted signup_failed) (run alice_signed_up)
  /\ signup_failed
     = JObj [("type", JStr "response");
             ("payload",
              JObj [("status", JStr "error");
                    ("message",
                     JStr "Sign-up failed. Email already exists.")])].
Proof.
  apply (signup_taken_address_rejected (run alice_signed_up) 0 fresh_session
           signup_alice_again "Eve" " A@X" "zz" "s" alice_row);
    first [concrete
          | split; [reflexivity|]; eexists; split_and!; reflexivity].
Defined.

(** X10, for Bob, who signs up as [ B@x ] and logs in as [b@X]. *)
Lemma signup_then_login_witness :
  let σ := run connected in
  let row := new_user "Bob" " B@x " "p2" "s" in
  let σ1 := recv 0 (Envelope (JObj signup_bob)) "s" σ in
  let σ2 := recv 0 (Envelope (JObj login_bob)) "-" σ1 in
  users σ2 = (users σ ++ [row])%list
  /\ wire σ2
     = (wire σ ++ [(0, Encrypted signup_ok); (0, Encrypted (login_ok row))]
       )%list
  /\ heap σ2 = <[0 := logged_in fresh_session row]> (heap σ)
  /\ state_of (logged_in fresh_session row) = AUTH
  /\ user_id (logged_in fresh_session row)
     = Some (Database._generate_user_id (normalize " B@x "))
  /\ Py.dict_get (_online_users σ2)
       (Database._generate_user_id (normalize " B@x ")) = Some 0.
Proof.
  intros σ.
  apply (signup_then_login σ 0 fresh_session signup_bob login_bob
           "Bob" " B@x " "b@X" "p2" "s" "-");
    first [concrete
          | split; [reflexivity|]; eexists; split_and!; reflexivity].
Defined.

End Concrete.
